(** * PyTorch "60 Minute Blitz" notebooks: a shallow embedding

    The repository holds three notebooks: the tensor tour ("What is
    PyTorch?"), the neural-network notebook (class [Net], the loss, the manual
    SGD update and the optimiser cell) and the CIFAR10 notebook (data loaders,
    [imshow]).  The notebooks' own code is embedded below; the calls into
    torch / torchvision are either taken as an abstract interface (a type
    class with the shape laws the framework documents) or, where a statement
    needs numbers, as IEEE-754 arithmetic on binary32 values.

    Layout: first all definitions (scalars, the CIFAR notebook, shapes, the
    framework interface, [Net], the parameter store, the cells), then the
    lemmas and theorems. *)

From Stdlib Require Import ZArith QArith Qabs Floats List Ascii String Lia ZifyNat.
From stdpp Require Import base option list strings gmap.

#[local] Set Warnings "-inexact-float,-clear-no-such-hyp".

Local Open Scope Z_scope.

(* ===================================================================== *)
(** * Scalars: binary32 tensors elements and Python floats               *)
(* ===================================================================== *)

(** A [torch.FloatTensor] element is an IEEE-754 binary32 number.  The
    arithmetic is the Standard Library's executable specification of IEEE
    floats ([SpecFloat]), at precision 24 and maximal exponent 128, rounding
    to nearest even. *)
Definition f32 : Type := spec_float.
Definition f32_prec : Z := 24.
Definition f32_emax : Z := 128.

Definition f32_add : f32 -> f32 -> f32 := SFadd f32_prec f32_emax.
Definition f32_sub : f32 -> f32 -> f32 := SFsub f32_prec f32_emax.
Definition f32_mul : f32 -> f32 -> f32 := SFmul f32_prec f32_emax.
Definition f32_div : f32 -> f32 -> f32 := SFdiv f32_prec f32_emax.

(** Conversion of an integer (a uint8 pixel, a Python int operand). *)
Definition f32_of_Z (n : Z) : f32 := binary_normalize f32_prec f32_emax n 0 false.

(** A Python [float] is a binary64 number; the framework casts it to binary32
    when it meets a FloatTensor (C's [(float)value]). *)
Definition f32_of_float (x : float) : f32 :=
  match Prim2SF x with
  | S754_finite s m e => binary_round f32_prec f32_emax s m e
  | other => other
  end.

(** Equality of floats as data (sign, mantissa, exponent) is decidable. *)
#[export] Instance spec_float_eq_dec : EqDecision spec_float.
Proof. solve_decision. Defined.

(** The real number a finite float denotes. *)
Definition sf_to_Q (x : spec_float) : option Q :=
  match x with
  | S754_zero _ => Some 0%Q
  | S754_finite s m e => Some (inject_Z (if s then Z.neg m else Z.pos m) * Qpower 2 e)%Q
  | S754_infinity _ | S754_nan => None
  end.

Definition float_to_Q (x : float) : Q := default 0%Q (sf_to_Q (Prim2SF x)).

(** Distance between two floats, as a rational ([None] off the finite ones). *)
Definition sf_dist (x y : spec_float) : option Q :=
  match sf_to_Q x, sf_to_Q y with
  | Some a, Some b => Some (Qabs (a - b))
  | _, _ => None
  end.

(** The element arithmetic a tensor expression uses: the operators of the
    notebook's expressions, and the two kinds of Python literal operands. *)
Class Arith (T : Type) := {
  ar_add : T -> T -> T;
  ar_sub : T -> T -> T;
  ar_div : T -> T -> T;
  ar_float : float -> T;
  ar_int : Z -> T
}.

(** What the framework computes: binary32. *)
#[export] Instance f32_arith : Arith f32 := {|
  ar_add := f32_add; ar_sub := f32_sub; ar_div := f32_div;
  ar_float := f32_of_float; ar_int := f32_of_Z
|}.

(** The same expressions read in exact rational arithmetic. *)
#[export] Instance Q_arith : Arith Q := {|
  ar_add := Qplus; ar_sub := Qminus; ar_div := Qdiv;
  ar_float := float_to_Q; ar_int := inject_Z
|}.

(* ===================================================================== *)
(** * Blitz 04: the CIFAR10 notebook                                     *)
(* ===================================================================== *)

Section Cifar.
Context {T : Type} `{Arith T}.

(** [transforms.ToTensor()]: a uint8 pixel becomes [float(k) / 255]. *)
Definition ToTensor_value (k : Byte.byte) : T :=
  ar_div (ar_int (Z.of_N (Byte.to_N k))) (ar_int 255).

(** [transforms.Normalize(mean, std)] on one element of a channel:
    [t.sub_(m).div_(s)]. *)
Definition Normalize_value (m s : float) (t : T) : T :=
  ar_div (ar_sub t (ar_float m)) (ar_float s).

(** [Normalize] walks [zip(tensor, mean, std)]: one (mean, std) per channel.
    The model is for tensors of at most as many channels as there are means
    (CIFAR10: three); channels beyond that, which the loop does not visit,
    are not represented. *)
Fixpoint Normalize (mean std : list float) (tensor : list (list T)) : list (list T) :=
  match tensor, mean, std with
  | t :: tensor', m :: mean', s :: std' =>
      map (Normalize_value m s) t :: Normalize mean' std' tensor'
  | _, _, _ => []
  end.

(** [transform = transforms.Compose([transforms.ToTensor(),
      transforms.Normalize((0.5, 0.5, 0.5), (0.5, 0.5, 0.5))])] *)
Definition transform_mean : list float := [0.5; 0.5; 0.5]%float.
Definition transform_std : list float := [0.5; 0.5; 0.5]%float.

Definition transform (pic : list (list Byte.byte)) : list (list T) :=
  Normalize transform_mean transform_std (map (map ToTensor_value) pic).

(** The value-level view of [transform]: every channel has mean 0.5, std 0.5. *)
Definition transform_value (k : Byte.byte) : T :=
  Normalize_value 0.5%float 0.5%float (ToTensor_value k).

(** [imshow], first line: [img = img / 2 + 0.5    # Unnormalise]. *)
Definition unnormalise_value (v : T) : T :=
  ar_add (ar_div v (ar_int 2)) (ar_float 0.5%float).

Definition imshow_unnormalise (img : list (list T)) : list (list T) :=
  map (map unnormalise_value) img.

End Cifar.

(** ** Data loaders *)

(** [torch.utils.data.DataLoader(dataset, batch_size, shuffle, num_workers)]
    as the notebook calls it. *)
Record DataLoader := {
  dl_train : bool;          (* the dataset: CIFAR10(train=...) *)
  dl_batch_size : nat;
  dl_shuffle : bool;
  dl_num_workers : nat
}.

Definition trainloader : DataLoader :=
  {| dl_train := true; dl_batch_size := 4; dl_shuffle := true; dl_num_workers := 2 |}.

Definition testloader : DataLoader :=
  {| dl_train := false; dl_batch_size := 4; dl_shuffle := false; dl_num_workers := 2 |}.

(** Who executes code during the session: the kernel's main thread, and the
    loader subprocesses the framework forks. *)
Inductive Executor :=
| MainThread
| LoaderWorker (train : bool) (worker_id : nat).

(** The session state of the CIFAR notebook that the statements look at: the
    executors alive, and the loaders bound to names so far. *)
Record CifarSession := {
  cs_executors : list Executor;
  cs_loaders : list (string * DataLoader)
}.

Definition cifar_start : CifarSession :=
  {| cs_executors := [MainThread]; cs_loaders := [] |}.

(** [iter(loader)]: the framework's [DataLoaderIter] starts [num_workers]
    subprocesses that fetch and collate batches ([num_workers = 0] loads in
    the calling thread). *)
Definition DataLoader_iter (dl : DataLoader) (s : CifarSession) : CifarSession :=
  {| cs_executors :=
       cs_executors s ++ map (LoaderWorker (dl_train dl)) (seq 0 (dl_num_workers dl));
     cs_loaders := cs_loaders s |}.

(** Cell 2: the transform, the two datasets and the two loaders are built;
    building a loader starts nothing. *)
Definition cifar_cell_load (s : CifarSession) : CifarSession :=
  {| cs_executors := cs_executors s;
     cs_loaders := cs_loaders s ++ [("trainloader"%string, trainloader);
                                    ("testloader"%string, testloader)] |}.

(** Cell 4: [dataiter = iter(trainloader)], one batch is taken and shown. *)
Definition cifar_cell_show (s : CifarSession) : CifarSession :=
  DataLoader_iter trainloader s.

(** The code cells in notebook order (cell 1 only imports). *)
Definition cifar_notebook (s : CifarSession) : CifarSession :=
  cifar_cell_show (cifar_cell_load s).

Definition is_worker (e : Executor) : bool :=
  match e with MainThread => false | LoaderWorker _ _ => true end.

Definition worker_count (s : CifarSession) : nat :=
  length (filter (fun e => is_worker e = true) (cs_executors s)).

(* ===================================================================== *)
(** * Shapes                                                            *)
(* ===================================================================== *)

Local Open Scope nat_scope.

(** A [torch.Size] is a list of dimensions; Python integers are unbounded. *)
Definition Size : Type := list nat.

(** Number of elements of a tensor of a given size. *)
Definition numel (s : Size) : nat := fold_right Nat.mul 1 s.

(** [Net.num_flat_features], on the size of its argument:
<<
    size = x.size()[1:]   # All dimensions except the batch dimension
    num_features = 1
    for s in size:
        num_features *= s
    return num_features
>> *)
Definition num_flat_features (x_size : Size) : nat :=
  let size := tail x_size in
  fold_left (fun num_features s => num_features * s) size 1.

(** An argument that is "an int or a pair of ints" ([kernel_size], [stride]);
    the framework's [_pair] doubles a single int. *)
Inductive IntOrPair :=
| Int (n : nat)
| Pair (a b : nat).

Definition _pair (k : IntOrPair) : nat * nat :=
  match k with
  | Int n => (n, n)
  | Pair a b => (a, b)
  end.

(** The size [F.conv2d(input, weight, bias, stride)] returns (no padding, no
    dilation, one group): defined for a 4-D input whose channel count is the
    weight's, a kernel that fits, and a bias of one entry per output channel. *)
Definition conv2d_shape (input weight : Size) (bias : option Size) (stride : nat * nat)
  : option Size :=
  match input, weight with
  | [n; c; h; w], [oc; ic; kh; kw] =>
      if decide (c = ic ∧ 0 < kh ≤ h ∧ 0 < kw ≤ w ∧ 0 < stride.1 ∧ 0 < stride.2
                 ∧ (bias = None ∨ bias = Some [oc]))
      then Some [n; oc; (h - kh) / stride.1 + 1; (w - kw) / stride.2 + 1]
      else None
  | _, _ => None
  end.

(** The size [F.max_pool2d(input, kernel_size)] returns: the stride defaults
    to the kernel size, sizes are rounded down. *)
Definition max_pool2d_shape (input : Size) (kernel : nat * nat) : option Size :=
  match input with
  | [n; c; h; w] =>
      if decide (0 < kernel.1 ≤ h ∧ 0 < kernel.2 ≤ w)
      then Some [n; c; (h - kernel.1) / kernel.1 + 1; (w - kernel.2) / kernel.2 + 1]
      else None
  | _ => None
  end.

(** The size [x.view(a1, a2, ...)] returns: at most one argument is [-1] and is
    inferred from the number of elements; the others are taken as they are,
    and the element count has to agree. *)
Definition view_known (args : list Z) : nat :=
  fold_right Nat.mul 1 (map Z.to_nat (filter (fun a => a ≠ (-1)%Z) args)).

Definition view_shape (input : Size) (args : list Z) : option Size :=
  if decide (Exists (fun a => (a < -1)%Z) args) then None else
  let known := view_known args in
  match length (filter (fun a => a = (-1)%Z) args) with
  | 0 => if decide (numel input = known) then Some (map Z.to_nat args) else None
  | 1 =>
      if decide (0 < known ∧ numel input mod known = 0)
      then Some (map (fun a => if decide (a = (-1)%Z) then numel input / known
                               else Z.to_nat a) args)
      else None
  | _ => None
  end.

(** The size [F.linear(input, weight, bias)] returns on a 2-D input. *)
Definition linear_shape (input weight : Size) (bias : option Size) : option Size :=
  match input, weight with
  | [n; i], [o; i'] =>
      if decide (i = i' ∧ (bias = None ∨ bias = Some [o])) then Some [n; o] else None
  | _, _ => None
  end.

(* ===================================================================== *)
(** * The framework interface                                            *)
(* ===================================================================== *)

(** Exceptions the framework (or attribute access) raises. *)
Inductive exn :=
| AttributeError (msg : string)
| RuntimeError (msg : string)
| AssertionError (msg : string)
| ValueError (msg : string).

Inductive result (A : Type) :=
| Ok (a : A)
| Raise (e : exn).
Arguments Ok {A} a.
Arguments Raise {A} e.

(** Object identity of an [nn.Parameter]. *)
Definition loc : Type := nat.

(** An [nn.Parameter]: its tensor ([.data]) and its gradient buffer
    ([.grad], [None] until a backward pass has reached it).  Each parameter
    owns both tensors: the layers' constructors and autograd allocate them
    afresh, so no two of them share storage. *)
Record Param (Tensor : Type) := mkParam {
  data : Tensor;
  grad : option Tensor
}.
Arguments mkParam {Tensor} data grad.
Arguments data {Tensor} p.
Arguments grad {Tensor} p.

(** Element-wise tensor operations of the update loop. *)
Class TensorOps (Tensor : Type) := {
  (** [t.size()] *)
  t_size : Tensor -> Size;
  (** [t * c] for a Python float [c]: a new tensor *)
  t_mul_scalar : Tensor -> float -> Tensor;
  (** the value of [self] after [self.sub_(other)], or the exception raised *)
  t_sub : Tensor -> Tensor -> result Tensor;
  t_size_mul_scalar : forall t c, t_size (t_mul_scalar t c) = t_size t;
  t_sub_same_size : forall a b,
    t_size a = t_size b -> exists c, t_sub a b = Ok c /\ t_size c = t_size a
}.

(** The [torch.nn] / [torch.optim] / autograd calls of the network notebook.
    The laws are the shape rules above: a call whose shapes fit returns a
    tensor of the stated size. *)
Class TorchNN (Tensor : Type) `{TensorOps Tensor} := {
  (** storage of a new parameter of a size, filled from the [k]-th draw *)
  t_random : nat -> Size -> Tensor;
  F_conv2d : Tensor -> Tensor -> option Tensor -> nat * nat -> result Tensor;
  F_relu : Tensor -> result Tensor;
  F_max_pool2d : Tensor -> nat * nat -> result Tensor;
  t_view : Tensor -> list Z -> result Tensor;
  F_linear : Tensor -> Tensor -> option Tensor -> result Tensor;
  (** [nn.MSELoss()(input, target)] *)
  F_mse_loss : Tensor -> Tensor -> result Tensor;
  (** [optimiser.zero_grad()], [loss.backward()], [optimiser.step()] on the
      parameter objects *)
  optim_zero_grad : list loc -> gmap loc (Param Tensor) -> result (gmap loc (Param Tensor));
  autograd_backward : Tensor -> gmap loc (Param Tensor) -> result (gmap loc (Param Tensor));
  optim_step : float -> list loc -> gmap loc (Param Tensor) -> result (gmap loc (Param Tensor));

  t_size_random : forall k s, t_size (t_random k s) = s;
  F_conv2d_size : forall x w b stride s,
    conv2d_shape (t_size x) (t_size w) (t_size <$> b) stride = Some s ->
    exists y, F_conv2d x w b stride = Ok y /\ t_size y = s;
  F_relu_size : forall x, exists y, F_relu x = Ok y /\ t_size y = t_size x;
  F_max_pool2d_size : forall x k s,
    max_pool2d_shape (t_size x) k = Some s ->
    exists y, F_max_pool2d x k = Ok y /\ t_size y = s;
  t_view_size : forall x args s,
    view_shape (t_size x) args = Some s ->
    exists y, t_view x args = Ok y /\ t_size y = s;
  F_linear_size : forall x w b s,
    linear_shape (t_size x) (t_size w) (t_size <$> b) = Some s ->
    exists y, F_linear x w b = Ok y /\ t_size y = s
}.

(* ===================================================================== *)
(** * Notebook sessions                                                  *)
(* ===================================================================== *)

(** A cell runs against the session state and either returns or raises; the
    state survives an exception (what was mutated stays mutated). *)
Definition M (S A : Type) : Type := S -> result A * S.

Definition ret {S A} (a : A) : M S A := fun s => (Ok a, s).

Definition raise {S A} (e : exn) : M S A := fun s => (Raise e, s).

Definition bind {S A B} (m : M S A) (k : A -> M S B) : M S B :=
  fun s =>
    match m s with
    | (Ok a, s') => k a s'
    | (Raise e, s') => (Raise e, s')
    end.

(** A framework call that touches no session state. *)
Definition lift {S A} (r : result A) : M S A := fun s => (r, s).

Notation "x <- m ;; k" := (bind m (fun x => k))
  (at level 63, m at next level, right associativity).
Notation "m ;;; k" := (bind m (fun _ => k))
  (at level 63, right associativity).

(** [for x in xs: body(x)] *)
Fixpoint for_each {S A} (xs : list A) (body : A -> M S unit) : M S unit :=
  match xs with
  | [] => ret tt
  | x :: xs' => body x ;;; for_each xs' body
  end.

(* ===================================================================== *)
(** * Blitz 03: the neural-network notebook                              *)
(* ===================================================================== *)

(** The framework calls a cell makes, in the order it makes them. *)
Inductive Call :=
| CallConv2d (layer : string)
| CallRelu
| CallMaxPool2d (kernel : nat * nat)
| CallView (args : list Z)
| CallLinear (layer : string)
| CallMSELoss
| CallZeroGrad
| CallBackward
| CallStep
| CallMulScalar (p : loc)
| CallSubInplace (p : loc).

(** The two kinds of layer [Net] is built from, with their hyper-parameters
    and their parameter objects. *)
Inductive Layer :=
| Conv2d (in_channels out_channels : nat) (kernel_size stride : nat * nat)
         (weight : loc) (bias : option loc)
| Linear (in_features out_features : nat) (weight : loc) (bias : option loc).

(** The hyper-parameters alone, as [print(net)] shows them. *)
Inductive LayerRepr :=
| ReprConv2d (in_channels out_channels : nat) (kernel_size stride : nat * nat)
| ReprLinear (in_features out_features : nat) (bias : bool).

Definition layer_repr (l : Layer) : LayerRepr :=
  match l with
  | Conv2d i o k s _ _ => ReprConv2d i o k s
  | Linear i o _ b => ReprLinear i o (bool_decide (is_Some b))
  end.

(** [Module._parameters] of a layer: weight, then bias; a [None] bias is
    skipped by the traversal. *)
Definition layer_parameters (l : Layer) : list loc :=
  match l with
  | Conv2d _ _ _ _ w b | Linear _ _ w b => w :: option_list b
  end.

(** An [nn.Module] with sub-modules: [_modules] is an ordered dictionary. *)
Record Net := mkNet {
  _modules : list (string * Layer)
}.

(** Ordered-dictionary assignment: an existing key keeps its position. *)
Fixpoint odict_set {V} (d : list (string * V)) (k : string) (v : V) : list (string * V) :=
  match d with
  | [] => [(k, v)]
  | (k', v') :: d' =>
      if decide (k = k') then (k, v) :: d' else (k', v') :: odict_set d' k v
  end.

Fixpoint odict_get {V} (d : list (string * V)) (k : string) : option V :=
  match d with
  | [] => None
  | (k', v') :: d' => if decide (k = k') then Some v' else odict_get d' k
  end.

(** [self.name = layer] ([Module.__setattr__] registers the sub-module). *)
Definition setattr (self : Net) (name : string) (value : Layer) : Net :=
  {| _modules := odict_set (_modules self) name value |}.

(** [parameters()] keeps a memo set of the objects already yielded. *)
Fixpoint yield_unseen (memo : gset loc) (ps : list loc) : list loc :=
  match ps with
  | [] => []
  | p :: ps' =>
      if decide (p ∈ memo) then yield_unseen memo ps'
      else p :: yield_unseen ({[p]} ∪ memo) ps'
  end.

(** [net.parameters()]: the sub-modules in registration order, each with its
    parameters in order, every object once. *)
Definition parameters (self : Net) : list loc :=
  yield_unseen ∅ (flat_map (fun nl => layer_parameters nl.2) (_modules self)).

(** [learning_rate = 0.01]: the binary64 number the literal denotes. *)
Definition learning_rate : float := 0x1.47ae147ae147bp-7%float.

(** The calls one run of [Net.forward] makes: the flattening passes the
    feature count it computed. *)
Definition forward_calls (n_features : nat) : list Call :=
  [CallConv2d "conv1"; CallRelu; CallMaxPool2d (2, 2);
   CallConv2d "conv2"; CallRelu; CallMaxPool2d (2, 2);
   CallView [(-1)%Z; Z.of_nat n_features];
   CallLinear "fc1"; CallRelu;
   CallLinear "fc2"; CallRelu;
   CallLinear "fc3"].

Section Network.
Context {Tensor : Type} {ops : TensorOps Tensor} {nn : TorchNN Tensor}.

(** The session of the network notebook: the parameter objects, the next
    object identity, the number of random draws, and the calls made. *)
Record Session := mkSession {
  store : gmap loc (Param Tensor);
  next_id : loc;
  draws : nat;
  log : list Call
}.

Definition emit (c : Call) : M Session unit :=
  fun s => (Ok tt, {| store := store s; next_id := next_id s; draws := draws s;
                      log := log s ++ [c] |}).

(** A framework call that replaces the parameter objects. *)
Definition update_store
    (f : gmap loc (Param Tensor) -> result (gmap loc (Param Tensor))) : M Session unit :=
  fun s =>
    match f (store s) with
    | Ok st => (Ok tt, {| store := st; next_id := next_id s; draws := draws s;
                          log := log s |})
    | Raise e => (Raise e, s)
    end.

(** Following a reference to a parameter object. *)
Definition deref (p : loc) : M Session (Param Tensor) :=
  fun s =>
    match store s !! p with
    | Some o => (Ok o, s)
    | None => (Raise (RuntimeError "no such object"), s)
    end.

Definition deref_opt (p : option loc) : M Session (option (Param Tensor)) :=
  match p with
  | None => ret None
  | Some l => o <- deref l ;; ret (Some o)
  end.

(** In-place replacement of the contents of [p.data]. *)
Definition set_data (p : loc) (d : Tensor) : M Session unit :=
  fun s =>
    (Ok tt, {| store := alter (fun o => mkParam d (grad o)) p (store s);
               next_id := next_id s; draws := draws s; log := log s |}).

(** A new [nn.Parameter] of a size, randomly initialised, no gradient yet. *)
Definition new_param (size : Size) : M Session loc :=
  fun s =>
    let l := next_id s in
    (Ok l, {| store := <[l := mkParam (t_random (draws s) size) None]> (store s);
              next_id := S l; draws := S (draws s); log := log s |}).

(** [nn.Conv2d(in_channels, out_channels, kernel_size)]: stride 1, a bias. *)
Definition nn_Conv2d (in_channels out_channels : nat) (kernel_size : IntOrPair)
  : M Session Layer :=
  let ks := _pair kernel_size in
  let stride := _pair (Int 1) in
  w <- new_param [out_channels; in_channels; ks.1; ks.2] ;;
  b <- new_param [out_channels] ;;
  ret (Conv2d in_channels out_channels ks stride w (Some b)).

(** [nn.Linear(in_features, out_features)]: a bias. *)
Definition nn_Linear (in_features out_features : nat) : M Session Layer :=
  w <- new_param [out_features; in_features] ;;
  b <- new_param [out_features] ;;
  ret (Linear in_features out_features w (Some b)).

(** [Net.__init__] *)
Definition Net_init : M Session Net :=
  let self := mkNet [] in                       (* super(Net, self).__init__() *)
  conv1 <- nn_Conv2d 1 6 (Int 5) ;;
  let self := setattr self "conv1" conv1 in
  conv2 <- nn_Conv2d 6 16 (Int 5) ;;
  let self := setattr self "conv2" conv2 in
  fc1 <- nn_Linear (16 * 5 * 5) 120 ;;
  let self := setattr self "fc1" fc1 in
  fc2 <- nn_Linear 120 84 ;;
  let self := setattr self "fc2" fc2 in
  fc3 <- nn_Linear 84 10 ;;
  let self := setattr self "fc3" fc3 in
  ret self.

(** [self.name]: attribute lookup among the registered sub-modules. *)
Definition getattr (self : Net) (name : string) : M Session Layer :=
  match odict_get (_modules self) name with
  | Some l => ret l
  | None => raise (AttributeError name)
  end.

(** [self.name(x)]: the layer's [forward], a single functional call on the
    layer's parameters. *)
Definition call_layer (self : Net) (name : string) (x : Tensor) : M Session Tensor :=
  layer <- getattr self name ;;
  match layer with
  | Conv2d _ _ _ stride w b =>
      wp <- deref w ;;
      bp <- deref_opt b ;;
      emit (CallConv2d name) ;;;
      lift (F_conv2d x (data wp) (data <$> bp) stride)
  | Linear _ _ w b =>
      wp <- deref w ;;
      bp <- deref_opt b ;;
      emit (CallLinear name) ;;;
      lift (F_linear x (data wp) (data <$> bp))
  end.

Definition relu (x : Tensor) : M Session Tensor :=
  emit CallRelu ;;; lift (F_relu x).

Definition max_pool2d (x : Tensor) (kernel_size : IntOrPair) : M Session Tensor :=
  emit (CallMaxPool2d (_pair kernel_size)) ;;;
  lift (F_max_pool2d x (_pair kernel_size)).

Definition view (x : Tensor) (args : list Z) : M Session Tensor :=
  emit (CallView args) ;;; lift (t_view x args).

(** [Net.forward]:
<<
    x = F.max_pool2d(F.relu(self.conv1(x)), (2, 2))
    x = F.max_pool2d(F.relu(self.conv2(x)), 2)
    x = x.view(-1, self.num_flat_features(x))
    x = F.relu(self.fc1(x))
    x = F.relu(self.fc2(x))
    x = self.fc3(x)
    return x
>> *)
Definition Net_forward (self : Net) (x : Tensor) : M Session Tensor :=
  x <- (c <- call_layer self "conv1" x ;; r <- relu c ;; max_pool2d r (Pair 2 2)) ;;
  x <- (c <- call_layer self "conv2" x ;; r <- relu c ;; max_pool2d r (Int 2)) ;;
  x <- view x [(-1)%Z; Z.of_nat (num_flat_features (t_size x))] ;;
  x <- (l <- call_layer self "fc1" x ;; relu l) ;;
  x <- (l <- call_layer self "fc2" x ;; relu l) ;;
  x <- call_layer self "fc3" x ;;
  ret x.

(** The body of the manual update loop: [f.data.sub_(f.grad.data * learning_rate)].
    [f.grad] is [None] for a parameter no backward pass has reached, and
    [None.data] raises. *)
Definition update_parameter (f : loc) : M Session unit :=
  p <- deref f ;;
  g <- match grad p with
       | Some g => ret g
       | None => raise (AttributeError "'NoneType' object has no attribute 'data'")
       end ;;
  emit (CallMulScalar f) ;;;
  let scaled := t_mul_scalar g learning_rate in
  emit (CallSubInplace f) ;;;
  d <- lift (t_sub (data p) scaled) ;;
  set_data f d.

(** The manual update cell:
<<
    learning_rate = 0.01
    for f in net.parameters():
        f.data.sub_(f.grad.data * learning_rate)
>> *)
Definition manual_update (net : Net) : M Session unit :=
  for_each (parameters net) update_parameter.

(** [criterion = nn.MSELoss()], and [criterion(output, target)]. *)
Definition criterion (output target : Tensor) : M Session Tensor :=
  emit CallMSELoss ;;; lift (F_mse_loss output target).

(** [optim.SGD(params, lr)] keeps the parameter list and the rate. *)
Record Optimizer := mkOptimizer {
  opt_params : list loc;
  opt_lr : float
}.

Definition optim_SGD (params : list loc) (lr : float) : M Session Optimizer :=
  match params with
  | [] => raise (ValueError "optimizer got an empty parameter list")
  | _ => ret (mkOptimizer params lr)
  end.

Definition optimiser_zero_grad (o : Optimizer) : M Session unit :=
  emit CallZeroGrad ;;; update_store (optim_zero_grad (opt_params o)).

Definition loss_backward (loss : Tensor) : M Session unit :=
  emit CallBackward ;;; update_store (autograd_backward loss).

Definition optimiser_step (o : Optimizer) : M Session unit :=
  emit CallStep ;;; update_store (optim_step (opt_lr o) (opt_params o)).

(** The optimiser cell:
<<
    optimiser = optim.SGD(net.parameters(), lr=0.01)
    optimiser.zero_grad()    # Zero the gradient buffers
    output = net(input)
    loss = criterion(output, target)
    loss.backward()
    optimiser.step()    # Does the update
>> *)
Definition training_step (net : Net) (input target : Tensor) : M Session unit :=
  optimiser <- optim_SGD (parameters net) learning_rate ;;
  optimiser_zero_grad optimiser ;;;
  output <- Net_forward net input ;;
  loss <- criterion output target ;;
  loss_backward loss ;;;
  optimiser_step optimiser.

End Network.
Arguments Session Tensor : clear implicits.

(* ===================================================================== *)
(** * Blitz 01: the tensor tour, its last cell                           *)
(* ===================================================================== *)

Section TensorTour.
Context {Tensor : Type}.

(** The machine the notebook runs on, as far as the cell can tell:
    [torch.cuda.is_available()], [t.cuda()] and [x + y]. *)
Record Host := mkHost {
  cuda_is_available : bool;
  t_cuda : Tensor -> result Tensor;
  t_add : Tensor -> Tensor -> result Tensor
}.

(** On a machine without CUDA, moving a tensor to the GPU raises. *)
Definition host_sound (h : Host) : Prop :=
  cuda_is_available h = false -> forall t, exists e, t_cuda h t = Raise e.

(** The cell's variables and what it printed. *)
Record Vars := mkVars {
  var_x : Tensor;
  var_y : Tensor;
  printed : list Tensor
}.

Definition get_x : M Vars Tensor := fun s => (Ok (var_x s), s).
Definition get_y : M Vars Tensor := fun s => (Ok (var_y s), s).
Definition assign_x (t : Tensor) : M Vars unit :=
  fun s => (Ok tt, mkVars t (var_y s) (printed s)).
Definition assign_y (t : Tensor) : M Vars unit :=
  fun s => (Ok tt, mkVars (var_x s) t (printed s)).
Definition print (t : Tensor) : M Vars unit :=
  fun s => (Ok tt, mkVars (var_x s) (var_y s) (printed s ++ [t])).

(** The CUDA cell; [r1] and [r2] are what the two [torch.rand(5, 3)] return:
<<
    x = torch.rand(5, 3)
    y = torch.rand(5, 3)
    if torch.cuda.is_available():
        x = x.cuda()
        y = y.cuda()
        print(x + y)
>> *)
Definition cuda_cell (h : Host) (r1 r2 : Tensor) : M Vars unit :=
  assign_x r1 ;;;
  assign_y r2 ;;;
  if cuda_is_available h then
    x <- get_x ;; gx <- lift (t_cuda h x) ;; assign_x gx ;;;
    y <- get_y ;; gy <- lift (t_cuda h y) ;; assign_y gy ;;;
    x <- get_x ;; y <- get_y ;; z <- lift (t_add h x y) ;; print z
  else ret tt.

End TensorTour.
Arguments Host Tensor : clear implicits.
Arguments Vars Tensor : clear implicits.

(* ===================================================================== *)
(** * Two models of the framework interface                              *)
(* ===================================================================== *)

(** ** Tensors seen through their size only *)

Definition shape_sub (a b : Size) : result Size :=
  if decide (a = b) then Ok a else Raise (RuntimeError "inconsistent tensor size").

Definition shape_call (r : option Size) : result Size :=
  match r with
  | Some s => Ok s
  | None => Raise (RuntimeError "size mismatch")
  end.

Definition shape_mse_loss (input target : Size) : result Size :=
  if decide (numel input = numel target) then Ok [1]
  else Raise (RuntimeError "input and target have different number of elements").

(** After a backward pass every parameter has a gradient of its own size. *)
Definition shape_backward (st : gmap loc (Param Size)) : gmap loc (Param Size) :=
  (fun p => mkParam (data p) (Some (data p))) <$> st.

#[export, refine] Instance shape_ops : TensorOps Size := {|
  t_size := fun s => s;
  t_mul_scalar := fun s _ => s;
  t_sub := shape_sub
|}.
Proof.
  - reflexivity.
  - intros a b ->. exists b. unfold shape_sub. by rewrite decide_True.
Defined.

#[export, refine] Instance shape_nn : TorchNN Size := {|
  t_random := fun _ s => s;
  F_conv2d := fun x w b stride => shape_call (conv2d_shape x w b stride);
  F_relu := fun x => Ok x;
  F_max_pool2d := fun x k => shape_call (max_pool2d_shape x k);
  t_view := fun x args => shape_call (view_shape x args);
  F_linear := fun x w b => shape_call (linear_shape x w b);
  F_mse_loss := shape_mse_loss;
  optim_zero_grad := fun _ st => Ok st;
  autograd_backward := fun _ st => Ok (shape_backward st);
  optim_step := fun _ _ st => Ok st
|}.
Proof.
  - reflexivity.
  - intros x w b stride s Hs. exists s. cbn in *.
    replace (id <$> b) with b in Hs by (by destruct b). by rewrite Hs.
  - intros x. by exists x.
  - intros x k s Hs. exists s. cbn in *. by rewrite Hs.
  - intros x args s Hs. exists s. cbn in *. by rewrite Hs.
  - intros x w b s Hs. exists s. cbn in *.
    replace (id <$> b) with b in Hs by (by destruct b). by rewrite Hs.
Defined.

(** ** Flat float32 vectors, for the element-wise operations *)

Fixpoint vec_sub (a b : list f32) : list f32 :=
  match a, b with
  | x :: a', y :: b' => f32_sub x y :: vec_sub a' b'
  | _, _ => []
  end.

Definition f32vec_sub (a b : list f32) : result (list f32) :=
  if decide (length a = length b) then Ok (vec_sub a b)
  else Raise (RuntimeError "inconsistent tensor size").

#[export, refine] Instance f32vec_ops : TensorOps (list f32) := {|
  t_size := fun t => [length t];
  t_mul_scalar := fun t c => map (fun x => f32_mul x (f32_of_float c)) t;
  t_sub := f32vec_sub
|}.
Proof.
  - intros t c. by rewrite length_map.
  - intros a b Hab. injection Hab as Hab. exists (vec_sub a b).
    unfold f32vec_sub. rewrite decide_True by done. split; [done|].
    f_equal. revert b Hab. induction a as [|x a IH]; intros [|y b] Hab; simpl in *;
      try done. f_equal. apply IH. lia.
Defined.

(* ===================================================================== *)
(** * Vocabulary of the statements                                       *)
(* ===================================================================== *)

(** Chaining of framework calls: the first exception ends the chain. *)
Definition and_then {A B} (r : result A) (f : A -> result B) : result B :=
  match r with
  | Ok a => f a
  | Raise e => Raise e
  end.

Notation "r >>= f" := (and_then r f) (at level 50, left associativity).

(** Sizes of the ten parameter tensors [Net()] allocates, in allocation
    order: weight and bias of [conv1], [conv2], [fc1], [fc2], [fc3]. *)
Definition param_sizes : list Size :=
  [[6; 1; 5; 5]; [6]; [16; 6; 5; 5]; [16];
   [120; 400]; [120]; [84; 120]; [84]; [10; 84]; [10]].

(** The object [Net()] returns when the next free object identity is [n]. *)
Definition net_at (n : loc) : Net :=
  mkNet [("conv1"%string, Conv2d 1 6 (5, 5) (1, 1) n (Some (1 + n)));
         ("conv2"%string, Conv2d 6 16 (5, 5) (1, 1) (2 + n) (Some (3 + n)));
         ("fc1"%string, Linear 400 120 (4 + n) (Some (5 + n)));
         ("fc2"%string, Linear 120 84 (6 + n) (Some (7 + n)));
         ("fc3"%string, Linear 84 10 (8 + n) (Some (9 + n)))].

Section NetworkSpec.
Context {Tensor : Type} {ops : TensorOps Tensor} {nn : TorchNN Tensor}.

Definition add_log (s : Session Tensor) (cs : list Call) : Session Tensor :=
  {| store := store s; next_id := next_id s; draws := draws s; log := log s ++ cs |}.

Definition set_store (s : Session Tensor) (st : gmap loc (Param Tensor)) : Session Tensor :=
  {| store := st; next_id := next_id s; draws := draws s; log := log s |}.

(** The sequence of operations the specification lists for the forward
    pass, as a chain of framework calls on the parameter tensors
    [W 0 .. W 9] (in the order of [param_sizes]):
    conv1, ReLU, 2x2 max-pool, conv2, ReLU, 2x2 max-pool; *)
Definition spec_conv_stack (W : nat -> Tensor) (x : Tensor) : result Tensor :=
  F_conv2d x (W 0) (Some (W 1)) (1, 1) >>= F_relu >>= (fun t => F_max_pool2d t (2, 2))
  >>= (fun t => F_conv2d t (W 2) (Some (W 3)) (1, 1))
  >>= F_relu >>= (fun t => F_max_pool2d t (2, 2)).

(** flatten to (batch, product of the other dimensions); *)
Definition spec_flatten (x : Tensor) : result Tensor :=
  t_view x [(-1)%Z; Z.of_nat (numel (tail (t_size x)))].

(** fc1, ReLU, fc2, ReLU, fc3. *)
Definition spec_classifier (W : nat -> Tensor) (x : Tensor) : result Tensor :=
  F_linear x (W 4) (Some (W 5)) >>= F_relu
  >>= (fun t => F_linear t (W 6) (Some (W 7))) >>= F_relu
  >>= (fun t => F_linear t (W 8) (Some (W 9))).

Definition spec_forward (W : nat -> Tensor) (x : Tensor) : result Tensor :=
  spec_conv_stack W x >>= spec_flatten >>= spec_classifier W.

(** The tensors [Net()] draws when started in session [s0]. *)
Definition init_tensor (s0 : Session Tensor) (i : nat) : Tensor :=
  t_random (i + draws s0) (nth i param_sizes []).

(** The parameter objects after [Net()] ran in session [s0]. *)
Definition init_store (s0 : Session Tensor) : gmap loc (Param Tensor) :=
  foldl (fun st i => <[i + next_id s0 := mkParam (init_tensor s0 i) None]> st)
        (store s0) (seq 0 10).

Definition init_session (s0 : Session Tensor) : Session Tensor :=
  {| store := init_store s0; next_id := 10 + next_id s0; draws := 10 + draws s0;
     log := log s0 |}.

(** A session before anything ran. *)
Definition empty_session : Session Tensor :=
  {| store := ∅; next_id := 0; draws := 0; log := [] |}.

(** The ten parameter objects of [net_at n] hold the tensors [W 0 .. W 9]
    (with whatever gradients). *)
Definition params_at (n : loc) (W : nat -> Tensor) (st : gmap loc (Param Tensor)) : Prop :=
  forall i, i < 10 -> exists g, st !! (i + n) = Some (mkParam (W i) g).

End NetworkSpec.

(** Input and output width of a layer. *)
Definition layer_in (l : Layer) : nat :=
  match l with
  | Conv2d i _ _ _ _ _ | Linear i _ _ _ => i
  end.

Definition layer_out (l : Layer) : nat :=
  match l with
  | Conv2d _ o _ _ _ _ | Linear _ o _ _ => o
  end.

(** ** Concrete sessions used as examples *)

(** Ten parameters with float32 contents and gradients, as after a backward
    pass: data (1, 2), gradient (0.5, -0.25). *)
Definition demo_param : Param (list f32) :=
  mkParam [f32_of_Z 1; f32_of_Z 2]
          (Some [f32_of_float 0.5%float; f32_of_float (-0.25)%float]).

Definition demo_session : Session (list f32) :=
  {| store := list_to_map ((fun i => (i, demo_param)) <$> seq 0 10);
     next_id := 10; draws := 10; log := [] |}.

(** A machine without CUDA, tensors seen through their size. *)
Definition cpu_host : Host Size :=
  {| cuda_is_available := false;
     t_cuda := fun _ => Raise (AssertionError "Torch not compiled with CUDA enabled");
     t_add := shape_sub |}.

(* ===================================================================== *)
(** * Blitz 01: the addition cells                                       *)
(* ===================================================================== *)

(** The memory of the tensor tour: the blocks of floats the tensors point
    to, the next free block, and what the cells printed. *)
Record Tour := mkTour {
  storages : gmap loc (list f32);
  tour_next : loc;
  tour_out : list (list f32)
}.

(** A new tensor holding [v]. *)
Definition tour_alloc (v : list f32) : M Tour loc :=
  fun t => (Ok (tour_next t),
            mkTour (<[tour_next t := v]> (storages t)) (S (tour_next t)) (tour_out t)).

Definition tour_read (l : loc) : M Tour (list f32) :=
  fun t =>
    match storages t !! l with
    | Some v => (Ok v, t)
    | None => (Raise (RuntimeError "no such object"), t)
    end.

(** Overwriting the contents of a tensor in place. *)
Definition tour_write (l : loc) (v : list f32) : M Tour unit :=
  fun t => (Ok tt, mkTour (<[l := v]> (storages t)) (tour_next t) (tour_out t)).

(** [print(t)] *)
Definition tour_print (l : loc) : M Tour unit :=
  v <- tour_read l ;;
  fun t => (Ok tt, mkTour (storages t) (tour_next t) (tour_out t ++ [v])).

(** Element-wise sum of two tensors with the same number of elements (the
    5x3 tensors of the cells); other pairs of sizes are rejected. *)
Definition vec_add (a b : list f32) : result (list f32) :=
  if decide (length a = length b) then Ok (zip_with f32_add a b)
  else Raise (RuntimeError "inconsistent tensor size").

(** [x + y] and [torch.add(x, y)]: the sum in a new tensor. *)
Definition torch_add (x y : loc) : M Tour loc :=
  vx <- tour_read x ;;
  vy <- tour_read y ;;
  v <- lift (vec_add vx vy) ;;
  tour_alloc v.

(** [torch.add(x, y, out=result)]: the sum replaces the contents of [out]. *)
Definition torch_add_out (x y out : loc) : M Tour unit :=
  vx <- tour_read x ;;
  vy <- tour_read y ;;
  v <- lift (vec_add vx vy) ;;
  tour_write out v.

(** [self.add_(other)]: [self] becomes [self + other], in place. *)
Definition tensor_add_ (self other : loc) : M Tour unit :=
  vs <- tour_read self ;;
  vo <- tour_read other ;;
  v <- lift (vec_add vs vo) ;;
  tour_write self v.

(** The four addition cells, [x] being the tensor of the cells before;
    [rand] is what [torch.rand(5, 3)] returns and [uninit] what the
    uninitialised [torch.Tensor(5, 3)] happens to hold:
<<
    y = torch.rand(5, 3)
    print(x + y)
    print(torch.add(x, y))
    result = torch.Tensor(5, 3)
    torch.add(x, y, out=result)
    print(result)
    y.add_(x)
    print(y)
>>
    The cells return the tensors bound to [y] and [result]. *)
Definition addition_cells (x : loc) (rand uninit : list f32) : M Tour (loc * loc) :=
  y <- tour_alloc rand ;;
  t <- torch_add x y ;;
  tour_print t ;;;
  t <- torch_add x y ;;
  tour_print t ;;;
  result <- tour_alloc uninit ;;
  torch_add_out x y result ;;;
  tour_print result ;;;
  tensor_add_ y x ;;;
  tour_print y ;;;
  ret (y, result).

(* ===================================================================== *)
(** * Blitz 04: the line of labels                                       *)
(* ===================================================================== *)

Local Open Scope string_scope.

(** [classes = ('plane', 'car', 'bird', 'cat', 'deer', 'dog', 'frog',
                'horse', 'ship', 'truck')] *)
Definition classes : list string :=
  ["plane"; "car"; "bird"; "cat"; "deer"; "dog"; "frog"; "horse"; "ship"; "truck"].

Inductive py_error :=
| IndexError (msg : string).

(** [t[i]] on a tuple: a negative index counts from the end. *)
Definition tuple_getitem {A} (t : list A) (i : Z) : py_error + A :=
  let n := Z.of_nat (length t) in
  let k := if decide (i < 0)%Z then (n + i)%Z else i in
  if decide (0 <= k < n)%Z then
    match t !! Z.to_nat k with
    | Some a => inr a
    | None => inl (IndexError "tuple index out of range")
    end
  else inl (IndexError "tuple index out of range").

(** [labels[j]] on the 1-D tensor of labels, for [j] counted from 0. *)
Definition labels_getitem (labels : list Z) (j : nat) : py_error + Z :=
  match labels !! j with
  | Some l => inr l
  | None => inl (IndexError "index out of range")
  end.

Fixpoint spaces (n : nat) : string :=
  match n with
  | 0 => ""
  | S n' => String " "%char (spaces n')
  end.

(** ['%5s' % s]: right-justified in a field of five, longer strings kept. *)
Definition format_5s (s : string) : string :=
  spaces (5 - String.length s) ++ s.

(** [sep.join(xs)] *)
Fixpoint join (sep : string) (xs : list string) : string :=
  match xs with
  | [] => ""
  | [x] => x
  | x :: xs' => x ++ sep ++ join sep xs'
  end.

(** The generator [('%5s' % classes[labels[j]] for j in js)], consumed from
    left to right; the first exception ends it. *)
Fixpoint shown_labels (labels : list Z) (js : list nat) : py_error + list string :=
  match js with
  | [] => inr []
  | j :: js' =>
      match labels_getitem labels j with
      | inl e => inl e
      | inr l =>
          match tuple_getitem classes l with
          | inl e => inl e
          | inr c =>
              match shown_labels labels js' with
              | inl e => inl e
              | inr rest => inr (format_5s c :: rest)
              end
          end
      end
  end.

(** [' '.join('%5s' % classes[labels[j]] for j in range(4))] *)
Definition label_line (labels : list Z) : py_error + string :=
  match shown_labels labels (seq 0 4) with
  | inl e => inl e
  | inr names => inr (join " " names)
  end.

Local Close Scope string_scope.

(* ===================================================================== *)
(** * Blitz 04: the datasets                                             *)
(* ===================================================================== *)

(** What the dataset constructor finds: whether the CIFAR10 archive is
    under [root] and passes the integrity check, and how an attempt to
    download it would end. *)
Record DataHost := mkDataHost {
  data_present : bool;
  fetch : result unit
}.

(** [torchvision.datasets.CIFAR10(root, train, download, transform)]: with
    [download=True] the constructor first downloads the archive unless it is
    already there and verified; then it raises when the archive is (still)
    missing.  A download that ends normally leaves a verified archive. *)
Definition CIFAR10_new (download : bool) : M DataHost unit :=
  (if download then
     fun h =>
       if data_present h then (Ok tt, h)
       else match fetch h with
            | Ok _ => (Ok tt, mkDataHost true (fetch h))
            | Raise e => (Raise e, h)
            end
   else ret tt) ;;;
  fun h =>
    if data_present h then (Ok tt, h)
    else (Raise (RuntimeError "Dataset not found or corrupted. You can use download=True to download it"), h).

(** The two constructor calls of the loading cell:
<<
    trainset = torchvision.datasets.CIFAR10(root="./data", train=True,
                                            download=True, transform=transform)
    testset = torchvision.datasets.CIFAR10(root="./data", train=False,
                                           download=True, transform=transform)
>> *)
Definition cifar_datasets_cell : M DataHost unit :=
  CIFAR10_new true ;;; CIFAR10_new true.

(** The field ['%5s' % classes[l]] shows for the label [l], written out: the
    class name after as many blanks as it lacks to five characters; a
    negative label counts from the end of the tuple. *)
Definition shown_class (l : Z) : string :=
  nth (Z.to_nat (l mod 10))
      ["plane"; "  car"; " bird"; "  cat"; " deer";
       "  dog"; " frog"; "horse"; " ship"; "truck"]%string ""%string.

(* ===================================================================== *)
(** * Vocabulary of the further statements                               *)
(* ===================================================================== *)

Section ForwardVocabulary.
Context {Tensor : Type}.

(** A computation that changes nothing of the session but the log, to which
    it adds at most [k] calls. *)
Definition logs_at_most {A} (k : nat) (m : M (Session Tensor) A) : Prop :=
  forall s, exists calls, (m s).2 = add_log s calls /\ length calls <= k.

End ForwardVocabulary.

(** Height (or width) of the feature map that reaches the flattening, for an
    input of height (or width) [h]: two rounds of "5x5 convolution, then 2x2
    pooling". *)
Definition pooled (h : nat) : nat := ((h - 4) / 2 - 4) / 2.

(** Positive zero, what [zero_()] writes. *)
Definition f32_zero : f32 := S754_zero false.

(** Ten float32 parameters with zeroed gradient buffers. *)
Definition zeroed_session : Session (list f32) :=
  {| store := list_to_map ((fun i => (i, mkParam [f32_of_Z 1; f32_of_Z 2]
                                              (Some [f32_zero; f32_zero])))
                           <$> seq 0 10);
     next_id := 10; draws := 10; log := [] |}.

(* ===================================================================== *)
(** * Proofs: the network                                                *)
(* ===================================================================== *)

(** ** Shape arithmetic of the layers of [Net] *)

Lemma conv1_shape (batch : nat) :
  conv2d_shape [batch; 1; 32; 32] [6; 1; 5; 5] (Some [6]) (1, 1) = Some [batch; 6; 28; 28].
Proof. unfold conv2d_shape. rewrite decide_True; [reflexivity|]. cbn. intuition lia. Qed.

Lemma pool1_shape (batch : nat) :
  max_pool2d_shape [batch; 6; 28; 28] (2, 2) = Some [batch; 6; 14; 14].
Proof. unfold max_pool2d_shape. rewrite decide_True; [reflexivity|]. cbn. lia. Qed.

Lemma conv2_shape (batch : nat) :
  conv2d_shape [batch; 6; 14; 14] [16; 6; 5; 5] (Some [16]) (1, 1) = Some [batch; 16; 10; 10].
Proof. unfold conv2d_shape. rewrite decide_True; [reflexivity|]. cbn. intuition lia. Qed.

Lemma pool2_shape (batch : nat) :
  max_pool2d_shape [batch; 16; 10; 10] (2, 2) = Some [batch; 16; 5; 5].
Proof. unfold max_pool2d_shape. rewrite decide_True; [reflexivity|]. cbn. lia. Qed.

Lemma flatten_shape (batch : nat) :
  view_shape [batch; 16; 5; 5] [(-1)%Z; 400%Z] = Some [batch; 400].
Proof.
  unfold view_shape. rewrite decide_False.
  2:{ rewrite Exists_cons, Exists_cons, Exists_nil. lia. }
  change (view_known [(-1)%Z; 400%Z]) with 400.
  change (length (filter (λ a : Z, a = (-1)%Z) [(-1)%Z; 400%Z])) with 1.
  assert (Hn : numel [batch; 16; 5; 5] = batch * 400) by (cbn; lia).
  rewrite Hn. rewrite decide_True.
  2:{ split; [lia|]. apply Nat.Div0.mod_mul. }
  rewrite Nat.div_mul by lia. reflexivity.
Qed.

Lemma fc_shape (batch i o : nat) :
  linear_shape [batch; i] [o; i] (Some [o]) = Some [batch; o].
Proof. unfold linear_shape. rewrite decide_True; [reflexivity|]. auto. Qed.

(** ** The parameters of the network *)

Lemma yield_unseen_spec (memo : gset loc) (ps : list loc) :
  NoDup (yield_unseen memo ps) /\
  (forall p, p ∈ yield_unseen memo ps <-> p ∈ ps /\ p ∉ memo).
Proof.
  revert memo. induction ps as [|q ps IH]; intros memo; simpl.
  - split; [constructor|]. intros p. set_solver.
  - destruct (decide (q ∈ memo)) as [Hq|Hq].
    + destruct (IH memo) as [Hnd Hin]. split; [exact Hnd|].
      intros p. rewrite Hin. set_solver.
    + destruct (IH ({[q]} ∪ memo)) as [Hnd Hin]. split.
      * constructor; [|exact Hnd]. rewrite Hin. set_solver.
      * intros p. rewrite elem_of_cons, Hin.
        destruct (decide (p = q)) as [->|Hne]; set_solver.
Qed.

Lemma parameters_NoDup (net : Net) : NoDup (parameters net).
Proof. apply yield_unseen_spec. Qed.

Lemma parameters_net_at (n : loc) :
  parameters (net_at n) = (fun i => i + n) <$> seq 0 10.
Proof.
  unfold parameters. simpl flat_map.
  repeat (cbn [yield_unseen]; rewrite decide_False by (set_solver by lia)).
  reflexivity.
Qed.


Section NetworkProofs.
Context {Tensor : Type} {ops : TensorOps Tensor} {nn : TorchNN Tensor}.

(** ** Running the session monad *)

Lemma add_log_app (s : Session Tensor) (a b : list Call) :
  add_log (add_log s a) b = add_log s (a ++ b).
Proof. unfold add_log. cbn. by rewrite app_assoc. Qed.

Lemma add_log_nil (s : Session Tensor) : add_log s [] = s.
Proof. destruct s. unfold add_log. cbn. by rewrite app_nil_r. Qed.

Lemma relu_run (x : Tensor) (s : Session Tensor) (l : list Call) :
  relu x (add_log s l) = (F_relu x, add_log s (l ++ [CallRelu])).
Proof. unfold relu, bind, emit, lift. cbn. by rewrite <- add_log_app. Qed.

Lemma max_pool2d_run (x : Tensor) (k : IntOrPair) (s : Session Tensor) (l : list Call) :
  max_pool2d x k (add_log s l)
  = (F_max_pool2d x (_pair k), add_log s (l ++ [CallMaxPool2d (_pair k)])).
Proof. unfold max_pool2d, bind, emit, lift. cbn. by rewrite <- add_log_app. Qed.

Lemma view_run (x : Tensor) (args : list Z) (s : Session Tensor) (l : list Call) :
  view x args (add_log s l) = (t_view x args, add_log s (l ++ [CallView args])).
Proof. unfold view, bind, emit, lift. cbn. by rewrite <- add_log_app. Qed.

Lemma call_layer_conv2d (net : Net) (name : string) (x : Tensor) (s : Session Tensor)
    (l : list Call) i o k stride w b wp bp :
  odict_get (_modules net) name = Some (Conv2d i o k stride w (Some b)) ->
  store s !! w = Some wp ->
  store s !! b = Some bp ->
  call_layer net name x (add_log s l)
  = (F_conv2d x (data wp) (Some (data bp)) stride, add_log s (l ++ [CallConv2d name])).
Proof.
  intros Hl Hw Hb. unfold call_layer, getattr, bind. rewrite Hl. cbn.
  unfold deref. cbn. rewrite Hw. cbn. unfold bind. cbn. rewrite Hb. cbn.
  by rewrite <- add_log_app.
Qed.

Lemma call_layer_linear (net : Net) (name : string) (x : Tensor) (s : Session Tensor)
    (l : list Call) i o w b wp bp :
  odict_get (_modules net) name = Some (Linear i o w (Some b)) ->
  store s !! w = Some wp ->
  store s !! b = Some bp ->
  call_layer net name x (add_log s l)
  = (F_linear x (data wp) (Some (data bp)), add_log s (l ++ [CallLinear name])).
Proof.
  intros Hl Hw Hb. unfold call_layer, getattr, bind. rewrite Hl. cbn.
  unfold deref. cbn. rewrite Hw. cbn. unfold bind. cbn. rewrite Hb. cbn.
  by rewrite <- add_log_app.
Qed.

(** ** What [Net()] builds *)

Lemma Net_init_run (s0 : Session Tensor) :
  Net_init s0 = (Ok (net_at (next_id s0)), init_session s0).
Proof. reflexivity. Qed.

Lemma init_store_lookup (s0 : Session Tensor) (i : nat) :
  i < 10 ->
  init_store s0 !! (i + next_id s0) = Some (mkParam (init_tensor s0 i) None).
Proof.
  intros Hi. unfold init_store. cbn [seq foldl].
  do 10 (destruct i as [|i];
         [ repeat (rewrite lookup_insert_ne by lia); by rewrite lookup_insert_eq | ]).
  lia.
Qed.

Lemma init_tensor_size (s0 : Session Tensor) (i : nat) :
  t_size (init_tensor s0 i) = nth i param_sizes [].
Proof. apply t_size_random. Qed.


(** ** The forward pass *)

Lemma Net_forward_run (n : loc) (W : nat -> Tensor) (s : Session Tensor)
    (x : Tensor) (batch : nat) :
  params_at n W (store s) ->
  (forall i, t_size (W i) = nth i param_sizes []) ->
  t_size x = [batch; 1; 32; 32] ->
  exists y,
    spec_forward W x = Ok y /\
    t_size y = [batch; 10] /\
    Net_forward (net_at n) x s = (Ok y, add_log s (forward_calls 400)).
Proof.
  intros HP HS Hx.
  destruct (F_conv2d_size x (W 0) (Some (W 1)) (1, 1) [batch; 6; 28; 28])
    as (c1 & Hc1 & Sc1).
  { rewrite Hx. cbn [fmap option_fmap option_map]. rewrite !HS. apply conv1_shape. }
  destruct (F_relu_size c1) as (r1 & Hr1 & Sr1). rewrite Sc1 in Sr1.
  destruct (F_max_pool2d_size r1 (2, 2) [batch; 6; 14; 14]) as (p1 & Hp1 & Sp1).
  { rewrite Sr1. apply pool1_shape. }
  destruct (F_conv2d_size p1 (W 2) (Some (W 3)) (1, 1) [batch; 16; 10; 10])
    as (c2 & Hc2 & Sc2).
  { rewrite Sp1. cbn [fmap option_fmap option_map]. rewrite !HS. apply conv2_shape. }
  destruct (F_relu_size c2) as (r2 & Hr2 & Sr2). rewrite Sc2 in Sr2.
  destruct (F_max_pool2d_size r2 (2, 2) [batch; 16; 5; 5]) as (p2 & Hp2 & Sp2).
  { rewrite Sr2. apply pool2_shape. }
  destruct (t_view_size p2 [(-1)%Z; 400%Z] [batch; 400]) as (v & Hv & Sv).
  { rewrite Sp2. apply flatten_shape. }
  destruct (F_linear_size v (W 4) (Some (W 5)) [batch; 120]) as (f1 & Hf1 & Sf1).
  { rewrite Sv. cbn [fmap option_fmap option_map]. rewrite !HS. apply fc_shape. }
  destruct (F_relu_size f1) as (r3 & Hr3 & Sr3). rewrite Sf1 in Sr3.
  destruct (F_linear_size r3 (W 6) (Some (W 7)) [batch; 84]) as (f2 & Hf2 & Sf2).
  { rewrite Sr3. cbn [fmap option_fmap option_map]. rewrite !HS. apply fc_shape. }
  destruct (F_relu_size f2) as (r4 & Hr4 & Sr4). rewrite Sf2 in Sr4.
  destruct (F_linear_size r4 (W 8) (Some (W 9)) [batch; 10]) as (y & Hy & Sy).
  { rewrite Sr4. cbn [fmap option_fmap option_map]. rewrite !HS. apply fc_shape. }
  exists y. split; [|split; [exact Sy|]].
  - unfold spec_forward, spec_conv_stack, spec_flatten, spec_classifier.
    rewrite Hc1. cbn [and_then]. rewrite Hr1. cbn [and_then]. rewrite Hp1. cbn [and_then].
    rewrite Hc2. cbn [and_then]. rewrite Hr2. cbn [and_then]. rewrite Hp2. cbn [and_then].
    rewrite Sp2. change (Z.of_nat (numel (tail [batch; 16; 5; 5]))) with 400%Z.
    rewrite Hv. cbn [and_then]. rewrite Hf1. cbn [and_then]. rewrite Hr3. cbn [and_then].
    rewrite Hf2. cbn [and_then]. rewrite Hr4. cbn [and_then]. exact Hy.
  - destruct (HP 0 ltac:(lia)) as [g0 H0]. destruct (HP 1 ltac:(lia)) as [g1 H1].
    destruct (HP 2 ltac:(lia)) as [g2 H2]. destruct (HP 3 ltac:(lia)) as [g3 H3].
    destruct (HP 4 ltac:(lia)) as [g4 H4]. destruct (HP 5 ltac:(lia)) as [g5 H5].
    destruct (HP 6 ltac:(lia)) as [g6 H6]. destruct (HP 7 ltac:(lia)) as [g7 H7].
    destruct (HP 8 ltac:(lia)) as [g8 H8]. destruct (HP 9 ltac:(lia)) as [g9 H9].
    rewrite <- (add_log_nil s) at 1.
    unfold Net_forward, bind.
    rewrite (call_layer_conv2d (net_at n) "conv1" x s _ _ _ _ _ _ _ _ _ eq_refl H0 H1).
    cbn [data]. rewrite Hc1, relu_run, Hr1, max_pool2d_run. cbn [_pair]. rewrite Hp1.
    rewrite (call_layer_conv2d (net_at n) "conv2" p1 s _ _ _ _ _ _ _ _ _ eq_refl H2 H3).
    cbn [data]. rewrite Hc2, relu_run, Hr2, max_pool2d_run. cbn [_pair]. rewrite Hp2.
    rewrite Sp2. change (Z.of_nat (num_flat_features [batch; 16; 5; 5])) with 400%Z.
    rewrite view_run, Hv.
    rewrite (call_layer_linear (net_at n) "fc1" v s _ _ _ _ _ _ _ eq_refl H4 H5).
    cbn [data]. rewrite Hf1, relu_run, Hr3.
    rewrite (call_layer_linear (net_at n) "fc2" r3 s _ _ _ _ _ _ _ eq_refl H6 H7).
    cbn [data]. rewrite Hf2, relu_run, Hr4.
    rewrite (call_layer_linear (net_at n) "fc3" r4 s _ _ _ _ _ _ _ eq_refl H8 H9).
    cbn [data]. rewrite Hy. reflexivity.
Qed.

Lemma params_at_init (s0 : Session Tensor) :
  params_at (next_id s0) (init_tensor s0) (init_store s0).
Proof. intros i Hi. exists None. by apply init_store_lookup. Qed.

(** C2.  In the session [Net()] leaves, on an input of size
    [batch; 1; 32; 32], [Net.forward] returns normally; what it returns is the
    result of the chain conv1, ReLU, 2x2 max-pool, conv2, ReLU, 2x2 max-pool,
    flatten, fc1, ReLU, fc2, ReLU, fc3 ([spec_forward]), a tensor of size
    [batch; 10]; and the framework calls it made are exactly these twelve, in
    this order ([forward_calls]: the flattening is to 400 features), the last
    one being fc3. *)
Theorem Net_forward_sequence (s0 s : Session Tensor) (net : Net) (x : Tensor) (batch : nat) :
  Net_init s0 = (Ok net, s) ->
  t_size x = [batch; 1; 32; 32] ->
  exists y,
    spec_forward (init_tensor s0) x = Ok y /\
    t_size y = [batch; 10] /\
    Net_forward net x s = (Ok y, add_log s (forward_calls 400)).
Proof.
  intros Hinit Hx. rewrite Net_init_run in Hinit. injection Hinit as <- <-.
  apply Net_forward_run with (batch := batch).
  - apply params_at_init.
  - apply init_tensor_size.
  - exact Hx.
Qed.


(** C3.  [Net()] returns a model whose registered sub-modules are exactly
    conv1 = Conv2d(1, 6, 5x5), conv2 = Conv2d(6, 16, 5x5), fc1 = Linear(400,
    120), fc2 = Linear(120, 84), fc3 = Linear(84, 10), in this order, and
    their ten parameter tensors have the sizes of [param_sizes]. *)
Theorem Net_init_layers (s0 : Session Tensor) :
  exists net s,
    Net_init s0 = (Ok net, s) /\
    map (fun nl => (nl.1, layer_repr nl.2)) (_modules net)
    = [("conv1"%string, ReprConv2d 1 6 (5, 5) (1, 1));
       ("conv2"%string, ReprConv2d 6 16 (5, 5) (1, 1));
       ("fc1"%string, ReprLinear 400 120 true);
       ("fc2"%string, ReprLinear 120 84 true);
       ("fc3"%string, ReprLinear 84 10 true)] /\
    Forall2 (fun p size => exists t, store s !! p = Some (mkParam t None) /\ t_size t = size)
            (parameters net) param_sizes.
Proof.
  exists (net_at (next_id s0)), (init_session s0).
  split; [apply Net_init_run|]. split; [reflexivity|].
  rewrite parameters_net_at. cbn [seq fmap list_fmap param_sizes].
  repeat (constructor;
          [ eexists; split;
            [ first [ apply (init_store_lookup s0 0); lia | apply (init_store_lookup s0 1); lia
                    | apply (init_store_lookup s0 2); lia | apply (init_store_lookup s0 3); lia
                    | apply (init_store_lookup s0 4); lia | apply (init_store_lookup s0 5); lia
                    | apply (init_store_lookup s0 6); lia | apply (init_store_lookup s0 7); lia
                    | apply (init_store_lookup s0 8); lia | apply (init_store_lookup s0 9); lia ]
            | apply init_tensor_size ] | ]).
  constructor.
Qed.

(** ** The optimiser cell *)

(** C5.  When each framework call of the optimiser cell succeeds, the cell
    ends normally and the calls it made are, in order and once each: zeroing
    the gradient buffers of the network's parameters, the twelve calls of one
    forward pass on the input, one [MSELoss] of the network output and the
    target, one backward pass from that loss, one optimiser step at rate
    [learning_rate] on the network's parameters. *)
Theorem training_step_sequence (n : loc) (W : nat -> Tensor) (s : Session Tensor)
    (input target output loss : Tensor) (batch : nat)
    (st1 st3 st4 : gmap loc (Param Tensor)) :
  t_size input = [batch; 1; 32; 32] ->
  (forall i, t_size (W i) = nth i param_sizes []) ->
  optim_zero_grad (parameters (net_at n)) (store s) = Ok st1 ->
  params_at n W st1 ->
  spec_forward W input = Ok output ->
  F_mse_loss output target = Ok loss ->
  autograd_backward loss st1 = Ok st3 ->
  optim_step learning_rate (parameters (net_at n)) st3 = Ok st4 ->
  training_step (net_at n) input target s
  = (Ok tt,
     set_store (add_log s ([CallZeroGrad] ++ forward_calls 400
                           ++ [CallMSELoss; CallBackward; CallStep])) st4).
Proof.
  intros Hin HS Hzero HP Hspec Hloss Hback Hstep.
  unfold training_step.
  destruct (parameters (net_at n)) as [|p ps] eqn:Hps.
  { rewrite parameters_net_at in Hps. discriminate Hps. }
  unfold bind at 1. cbn [optim_SGD ret].
  unfold bind at 1. unfold optimiser_zero_grad, bind at 1. cbn [emit opt_params].
  unfold update_store at 1. cbn [store]. rewrite Hzero.
  set (s1 := {| store := st1; next_id := _; draws := _; log := _ |}).
  destruct (Net_forward_run n W s1 input batch HP HS Hin) as (y & Hy & _ & Hrun).
  rewrite Hspec in Hy. injection Hy as <-.
  unfold bind at 1. rewrite Hrun.
  unfold bind at 1. unfold criterion, bind at 1. cbn [emit lift]. rewrite Hloss.
  unfold bind at 1. unfold loss_backward, bind at 1. cbn [emit].
  unfold update_store at 1. unfold s1. cbn [store add_log]. rewrite Hback.
  unfold optimiser_step, bind. cbn [emit opt_params opt_lr].
  unfold update_store. cbn [store]. rewrite Hstep.
  unfold set_store, add_log. cbn [store next_id draws log forward_calls].
  f_equal. f_equal. rewrite <- !app_assoc. reflexivity.
Qed.

End NetworkProofs.

(** Witness of [Net_forward_sequence]: a batch of one image, tensors seen
    through their size, in the session right after [Net()]. *)
Lemma Net_forward_sequence_witness :
  exists y : Size,
    spec_forward (init_tensor empty_session) [1; 1; 32; 32] = Ok y /\
    t_size y = [1; 10] /\
    Net_forward (net_at 0) [1; 1; 32; 32] (init_session empty_session)
    = (Ok y, add_log (init_session empty_session) (forward_calls 400)).
Proof.
  apply (Net_forward_sequence empty_session (init_session empty_session) (net_at 0)
           [1; 1; 32; 32] 1); reflexivity.
Defined.

(* ===================================================================== *)
(** * Proofs: the manual update loop                                     *)
(* ===================================================================== *)

Section UpdateProofs.
Context {Tensor : Type} {ops : TensorOps Tensor}.

(** One iteration of the loop on a parameter that has a gradient of the size
    of its data. *)
Lemma update_parameter_run (f : loc) (s : Session Tensor) (d g : Tensor) :
  store s !! f = Some (mkParam d (Some g)) ->
  t_size g = t_size d ->
  exists d',
    t_sub d (t_mul_scalar g learning_rate) = Ok d' /\
    update_parameter f s
    = (Ok tt, {| store := alter (fun o => mkParam d' (grad o)) f (store s);
                 next_id := next_id s; draws := draws s;
                 log := log s ++ [CallMulScalar f; CallSubInplace f] |}).
Proof.
  intros Hf Hsize.
  destruct (t_sub_same_size d (t_mul_scalar g learning_rate)) as (d' & Hd' & _).
  { by rewrite t_size_mul_scalar. }
  exists d'. split; [exact Hd'|].
  unfold update_parameter, bind, deref. rewrite Hf. cbn. rewrite Hd'. cbn.
  by rewrite <- app_assoc.
Qed.

Lemma update_loop_run (ps : list loc) (s : Session Tensor) :
  NoDup ps ->
  (forall f, f ∈ ps ->
     exists d g, store s !! f = Some (mkParam d (Some g)) /\ t_size g = t_size d) ->
  exists s',
    for_each ps update_parameter s = (Ok tt, s') /\
    (forall f d g, f ∈ ps -> store s !! f = Some (mkParam d (Some g)) ->
       exists d', t_sub d (t_mul_scalar g learning_rate) = Ok d' /\
                  store s' !! f = Some (mkParam d' (Some g))) /\
    (forall f, f ∉ ps -> store s' !! f = store s !! f) /\
    log s' = log s ++ flat_map (fun f => [CallMulScalar f; CallSubInplace f]) ps.
Proof.
  revert s. induction ps as [|f ps IH]; intros s Hnd Hall.
  - exists s. cbn. rewrite app_nil_r. repeat split; try done.
    intros f d g Hf. by apply elem_of_nil in Hf.
  - apply NoDup_cons in Hnd as [Hf Hnd].
    destruct (Hall f) as (d & g & Hlook & Hsize); [by left|].
    destruct (update_parameter_run f s d g Hlook Hsize) as (d' & Hd' & Hrun).
    set (s1 := {| store := alter (fun o => mkParam d' (grad o)) f (store s);
                  next_id := next_id s; draws := draws s;
                  log := log s ++ [CallMulScalar f; CallSubInplace f] |}) in *.
    assert (Hother : forall f', f' ≠ f -> store s1 !! f' = store s !! f').
    { intros f' Hne. cbn. by rewrite lookup_alter_ne. }
    destruct (IH s1 Hnd) as (s' & Hloop & Hupd & Hframe & Hlog).
    { intros f' Hf'. rewrite Hother; [apply Hall; by right|]. intros ->. done. }
    exists s'. split; [|split; [|split]].
    + cbn [for_each]. unfold bind. rewrite Hrun. exact Hloop.
    + intros f' d0 g0 Hin Hl0. apply elem_of_cons in Hin as [->|Hin].
      * rewrite Hlook in Hl0. injection Hl0 as <- <-.
        exists d'. split; [exact Hd'|].
        rewrite Hframe by exact Hf. cbn. rewrite lookup_alter_eq, Hlook. reflexivity.
      * apply Hupd; [exact Hin|]. rewrite Hother; [exact Hl0|]. intros ->. done.
    + intros f' Hnin. apply not_elem_of_cons in Hnin as [Hne Hnin].
      rewrite Hframe by exact Hnin. by apply Hother.
    + rewrite Hlog. cbn. by rewrite <- app_assoc.
Qed.

(** C1.  When every parameter of the network has a gradient of the size of
    its data (the state a backward pass leaves), the manual update cell ends
    normally and replaces the data of every parameter [f] of
    [net.parameters()] by [data - grad * learning_rate], where
    [learning_rate] is the float [0.01]; the parameters are pairwise distinct
    and the calls made are, for each of them in order and once, the scaling
    of its gradient and the in-place subtraction. *)
Theorem manual_update_sgd (net : Net) (s : Session Tensor) :
  (forall f, f ∈ parameters net ->
     exists d g, store s !! f = Some (mkParam d (Some g)) /\ t_size g = t_size d) ->
  exists s',
    manual_update net s = (Ok tt, s') /\
    (forall f d g, f ∈ parameters net -> store s !! f = Some (mkParam d (Some g)) ->
       exists d', t_sub d (t_mul_scalar g learning_rate) = Ok d' /\
                  store s' !! f = Some (mkParam d' (Some g))) /\
    learning_rate = 0.01%float /\
    NoDup (parameters net) /\
    log s' = log s ++ flat_map (fun f => [CallMulScalar f; CallSubInplace f])
                               (parameters net).
Proof.
  intros Hall.
  destruct (update_loop_run (parameters net) s (parameters_NoDup net) Hall)
    as (s' & Hrun & Hupd & _ & Hlog).
  exists s'. split; [exact Hrun|]. split; [exact Hupd|].
  split; [reflexivity|]. split; [apply parameters_NoDup | exact Hlog].
Qed.

(** One iteration changes nothing but the data of its parameter. *)
Lemma update_parameter_frame (f : loc) (s : Session Tensor) :
  let s1 := (update_parameter f s).2 in
  (forall f', grad <$> (store s1 !! f') = grad <$> (store s !! f')) /\
  (forall f', f' ≠ f -> store s1 !! f' = store s !! f') /\
  dom (store s1) = dom (store s) /\
  next_id s1 = next_id s /\ draws s1 = draws s.
Proof.
  unfold update_parameter, bind, deref.
  destruct (store s !! f) as [p|] eqn:Hf; cbn; [|done].
  destruct (grad p) as [g|] eqn:Hg; cbn; [|done].
  destruct (t_sub (data p) (t_mul_scalar g learning_rate)) as [d'|e]; cbn; [|done].
  repeat split.
  - intros f'. rewrite lookup_alter. destruct (decide (f = f')) as [->|]; [|done].
    rewrite Hf. done.
  - intros f' Hne. by rewrite lookup_alter_ne.
  - apply leibniz_equiv, dom_alter.
Qed.

Lemma update_loop_frame (ps : list loc) (s : Session Tensor) :
  let s' := (for_each ps update_parameter s).2 in
  (forall f, grad <$> (store s' !! f) = grad <$> (store s !! f)) /\
  (forall f, f ∉ ps -> store s' !! f = store s !! f) /\
  dom (store s') = dom (store s) /\
  next_id s' = next_id s /\ draws s' = draws s.
Proof.
  revert s. induction ps as [|f ps IH]; intros s; [done|].
  cbn [for_each]. unfold bind.
  pose proof (update_parameter_frame f s) as Hstep.
  destruct (update_parameter f s) as [[[]|e] s1]; cbn in Hstep.
  - specialize (IH s1). cbn zeta in IH.
    destruct (for_each ps update_parameter s1) as [r s']; cbn in *.
    destruct Hstep as (Hg1 & Ho1 & Hd1 & Hn1 & Hr1).
    destruct IH as (Hg & Ho & Hd & Hn & Hr).
    split; [|split; [|split; [|split]]].
    + intros f'. by rewrite Hg, Hg1.
    + intros f' Hnin. apply not_elem_of_cons in Hnin as [Hne Hnin].
      rewrite Ho by done. by apply Ho1.
    + by rewrite Hd.
    + by rewrite Hn.
    + by rewrite Hr.
  - cbn. destruct Hstep as (Hg1 & Ho1 & Hd1 & Hn1 & Hr1).
    split; [|split; [|split; [|split]]]; try done.
    intros f' Hnin. apply not_elem_of_cons in Hnin as [Hne Hnin]. by apply Ho1.
Qed.

(** C10.  Whatever the outcome of the manual update cell (normal end, or an
    exception part-way), in the session it leaves every gradient buffer is
    what it was, an object that is no parameter of the network is untouched,
    no object was created or deleted, and the counters of the session are
    unchanged: only the [data] of parameters can differ.  (The [Net] object
    itself is an argument the cell only reads.) *)
Theorem manual_update_frame (net : Net) (s : Session Tensor) :
  let s' := (manual_update net s).2 in
  (forall f, grad <$> (store s' !! f) = grad <$> (store s !! f)) /\
  (forall f, f ∉ parameters net -> store s' !! f = store s !! f) /\
  dom (store s') = dom (store s) /\
  next_id s' = next_id s /\ draws s' = draws s.
Proof. apply update_loop_frame. Qed.

End UpdateProofs.

(** Witness of [manual_update_sgd]: float32 parameters with gradients. *)
Lemma manual_update_sgd_witness :
  exists s',
    manual_update (net_at 0) demo_session = (Ok tt, s') /\
    (forall f d g, f ∈ parameters (net_at 0) ->
       store demo_session !! f = Some (mkParam d (Some g)) ->
       exists d', t_sub d (t_mul_scalar g learning_rate) = Ok d' /\
                  store s' !! f = Some (mkParam d' (Some g))) /\
    learning_rate = 0.01%float /\
    NoDup (parameters (net_at 0)) /\
    log s' = log demo_session
             ++ flat_map (fun f => [CallMulScalar f; CallSubInplace f])
                         (parameters (net_at 0)).
Proof.
  apply (manual_update_sgd (net_at 0) demo_session).
  intros f Hf. rewrite parameters_net_at in Hf. cbn in Hf.
  repeat (apply elem_of_cons in Hf as [->|Hf]);
    try (by apply elem_of_nil in Hf);
    eexists _, _; split; reflexivity.
Defined.

(** Witness of [training_step_sequence]: tensors seen through their size, in
    the session right after [Net()], on one 1x32x32 image and a target of ten
    values. *)
Lemma training_step_sequence_witness :
  training_step (net_at 0) [1; 1; 32; 32] [10] (init_session empty_session)
  = (Ok tt,
     set_store (add_log (init_session empty_session)
                        ([CallZeroGrad] ++ forward_calls 400
                         ++ [CallMSELoss; CallBackward; CallStep]))
               (shape_backward (init_store empty_session))).
Proof.
  apply (training_step_sequence 0 (init_tensor empty_session) (init_session empty_session)
           [1; 1; 32; 32] [10] [1; 10] [1] 1
           (init_store empty_session)
           (shape_backward (init_store empty_session))
           (shape_backward (init_store empty_session))).
  - reflexivity.
  - intros i. apply (init_tensor_size empty_session).
  - reflexivity.
  - apply (params_at_init empty_session).
  - vm_compute. reflexivity.
  - reflexivity.
  - reflexivity.
  - reflexivity.
Defined.

(* ===================================================================== *)
(** * Proofs: shapes                                                     *)
(* ===================================================================== *)

Lemma fold_left_mul_numel (dims : Size) (acc : nat) :
  fold_left (fun num_features s => num_features * s) dims acc = acc * numel dims.
Proof.
  revert acc. induction dims as [|d dims IH]; intros acc; simpl.
  - lia.
  - rewrite IH. lia.
Qed.

(** C8.  On a size with a batch dimension followed by [rest],
    [num_flat_features] is the product of [rest]; on a one-dimensional size
    it is 1. *)
Theorem num_flat_features_product (batch : nat) (rest : Size) :
  num_flat_features (batch :: rest) = numel rest /\ num_flat_features [batch] = 1.
Proof.
  split.
  - unfold num_flat_features. cbn [tail]. rewrite fold_left_mul_numel. lia.
  - reflexivity.
Qed.

(** C4.  Through their sizes, for any batch of 1-channel 32x32 images: [Net()]
    registers conv1, conv2, fc1, fc2, fc3; the conv1 / pool / conv2 / pool
    stack yields [batch; 16; 5; 5], which has 400 = 16*5*5 flat features and
    is flattened to [batch; 400]; 400 is fc1's input width; each layer's
    output width is the next layer's input width (6, 120, 84); and the whole
    forward pass returns [batch; 10]. *)
Theorem layers_shape_compatible (batch : nat) (s0 : Session Size) :
  exists net s conv1 conv2 fc1 fc2 fc3,
    Net_init s0 = (Ok net, s) /\
    _modules net = [("conv1"%string, conv1); ("conv2"%string, conv2);
                    ("fc1"%string, fc1); ("fc2"%string, fc2); ("fc3"%string, fc3)] /\
    spec_conv_stack (init_tensor s0) [batch; 1; 32; 32] = Ok [batch; 16; 5; 5] /\
    num_flat_features [batch; 16; 5; 5] = 400 /\
    spec_flatten [batch; 16; 5; 5] = Ok [batch; 400] /\
    layer_in fc1 = 400 /\ 400 = 16 * 5 * 5 /\
    layer_out conv1 = layer_in conv2 /\
    layer_out fc1 = 120 /\ layer_in fc2 = 120 /\
    layer_out fc2 = 84 /\ layer_in fc3 = 84 /\
    Net_forward net [batch; 1; 32; 32] s = (Ok [batch; 10], add_log s (forward_calls 400)).
Proof.
  eexists (net_at (next_id s0)), (init_session s0), _, _, _, _, _.
  split; [apply Net_init_run|]. split; [reflexivity|].
  split.
  { unfold spec_conv_stack. cbn [F_conv2d F_relu F_max_pool2d shape_nn init_tensor
      t_random param_sizes nth].
    rewrite conv1_shape. cbn [shape_call and_then]. rewrite pool1_shape.
    cbn [shape_call and_then]. rewrite conv2_shape. cbn [shape_call and_then].
    rewrite pool2_shape. reflexivity. }
  split; [reflexivity|].
  split.
  { unfold spec_flatten. cbn [t_view t_size shape_nn shape_ops tail].
    change (Z.of_nat (numel [16; 5; 5])) with 400%Z. by rewrite flatten_shape. }
  do 7 (split; [reflexivity|]).
  destruct (Net_forward_run (ops := shape_ops) (nn := shape_nn) (next_id s0)
              (init_tensor s0) (init_session s0) [batch; 1; 32; 32] batch
              (params_at_init s0) (init_tensor_size s0) ltac:(reflexivity))
    as (y & _ & Hy & Hrun).
  cbn in Hy. subst y. exact Hrun.
Qed.

(* ===================================================================== *)
(** * Proofs: failures                                                   *)
(* ===================================================================== *)


(* ===================================================================== *)
(** * Proofs: the CIFAR10 notebook                                       *)
(* ===================================================================== *)

(** C7, as stated, fails: after the cells of the CIFAR10 notebook, the main
    thread is not the only executor. *)
Lemma cifar_notebook_not_single_threaded :
  cs_executors (cifar_notebook cifar_start) <> [MainThread].
Proof. discriminate. Qed.

Lemma worker_count_app (s : CifarSession) (es : list Executor) :
  length (filter (fun e => is_worker e = true) (cs_executors s ++ es))
  = worker_count s + length (filter (fun e => is_worker e = true) es).
Proof. unfold worker_count. by rewrite filter_app, length_app. Qed.

(** C7 (amended).  Building the loaders starts no executor; [iter(trainloader)]
    in the image cell starts the two worker subprocesses that
    [num_workers=2] asks for, and nothing else does: after the notebook the
    executors are those before it plus these two workers.  A loader with
    [num_workers = 0] would start none. *)
Theorem cifar_executors (s : CifarSession) :
  cs_executors (cifar_cell_load s) = cs_executors s /\
  cs_executors (cifar_notebook s)
  = cs_executors s ++ [LoaderWorker true 0; LoaderWorker true 1] /\
  worker_count (cifar_notebook s) = worker_count s + dl_num_workers trainloader /\
  (forall tr bs sh,
     cs_executors (DataLoader_iter {| dl_train := tr; dl_batch_size := bs;
                                      dl_shuffle := sh; dl_num_workers := 0 |} s)
     = cs_executors s).
Proof.
  split; [reflexivity|]. split; [reflexivity|]. split.
  - unfold worker_count at 1. unfold cifar_notebook, cifar_cell_show, DataLoader_iter.
    cbn [cs_executors cifar_cell_load]. rewrite filter_app, length_app. reflexivity.
  - intros tr bs sh. unfold DataLoader_iter. cbn. by rewrite app_nil_r.
Qed.

(** ** Normalisation and [imshow] *)

Lemma float_half_Q : (float_to_Q 0.5 == 1 # 2)%Q.
Proof. vm_compute. reflexivity. Qed.

Lemma Normalize_value_Q (p : Q) :
  (Normalize_value 0.5 0.5 p == 2 * p - 1)%Q.
Proof.
  unfold Normalize_value. cbn [ar_sub ar_div ar_float Q_arith].
  rewrite float_half_Q. field.
Qed.

Lemma unnormalise_Normalize_Q (p : Q) :
  (unnormalise_value (Normalize_value 0.5 0.5 p) == p)%Q.
Proof.
  unfold unnormalise_value, Normalize_value.
  cbn [ar_add ar_sub ar_div ar_float ar_int Q_arith].
  rewrite float_half_Q. field.
Qed.

Lemma unnormalise_channel_Q (c : list Byte.byte) :
  Forall2 Qeq
    (map unnormalise_value (map (Normalize_value 0.5 0.5) (map ToTensor_value c)))
    (map ToTensor_value c).
Proof.
  induction c as [|k c IH]; cbn [map]; constructor; [|exact IH].
  apply unnormalise_Normalize_Q.
Qed.

Lemma imshow_transform_Q (r g b : list Byte.byte) :
  Forall2 (Forall2 Qeq)
    (imshow_unnormalise (transform [r; g; b]))
    (map (map ToTensor_value) [r; g; b]).
Proof.
  unfold imshow_unnormalise, transform, transform_mean, transform_std.
  cbn [map Normalize].
  repeat (constructor; [apply unnormalise_channel_Q|]). constructor.
Qed.

Lemma f32_roundtrip_pixels (k : Byte.byte) :
  let p : f32 := ToTensor_value k in
  let q : f32 := unnormalise_value (transform_value k) in
  (if ((64 <=? Byte.to_N k)%N || (Byte.to_N k =? 0)%N)%bool then q = p else q <> p) /\
  exists d, sf_dist q p = Some d /\ (d <= 1 # 67108864)%Q.
Proof.
  destruct k; vm_compute;
    (split; [first [reflexivity | discriminate]
            | eexists; split; [reflexivity | discriminate]]).
Qed.

(** C9, as stated, fails on the tensors the notebook handles: for the pixel
    1/255, which lies in [0, 1], unnormalising the normalised value does not
    give the value back. *)
Lemma unnormalise_not_inverse_on_float32 :
  let p : f32 := ToTensor_value Byte.x01 in
  SFleb (f32_of_Z 0) p = true /\ SFleb p (f32_of_Z 1) = true /\
  unnormalise_value (Normalize_value 0.5%float 0.5%float p) <> p.
Proof. vm_compute. split; [reflexivity|]. split; [reflexivity|]. discriminate. Qed.

(** C9 (amended).  Read in exact arithmetic, [Normalize] with mean 0.5 and
    std 0.5 is [p |-> 2p - 1] and [img / 2 + 0.5] is its inverse, for every
    value [p], hence on every three-channel image.  On float32 tensors, for the 256 pixel values [k / 255] that
    [ToTensor] produces: the round trip returns the pixel exactly when
    [k = 0] or [k >= 64], returns a different float for [1 <= k <= 63], and
    in every case stays within 2^-26 of the pixel. *)
Theorem unnormalise_inverts_Normalize :
  (forall p : Q,
     (Normalize_value 0.5 0.5 p == 2 * p - 1)%Q /\
     (unnormalise_value (Normalize_value 0.5 0.5 p) == p)%Q) /\
  (forall r g b : list Byte.byte,
     Forall2 (Forall2 Qeq) (imshow_unnormalise (transform [r; g; b]))
             (map (map ToTensor_value) [r; g; b])) /\
  (forall k : Byte.byte,
     let p : f32 := ToTensor_value k in
     let q : f32 := unnormalise_value (transform_value k) in
     (if ((64 <=? Byte.to_N k)%N || (Byte.to_N k =? 0)%N)%bool then q = p else q <> p) /\
     exists d, sf_dist q p = Some d /\ (d <= 1 # 67108864)%Q).
Proof.
  split; [|split].
  - intros p. split; [apply Normalize_value_Q | apply unnormalise_Normalize_Q].
  - apply imshow_transform_Q.
  - apply f32_roundtrip_pixels.
Qed.

(* ===================================================================== *)
(** * Further properties: reshaping                                      *)
(* ===================================================================== *)

Lemma numel_cons (d : nat) (s : Size) : numel (d :: s) = d * numel s.
Proof. reflexivity. Qed.

Lemma view_known_cons (a : Z) (args : list Z) :
  view_known (a :: args)
  = if decide (a = (-1)%Z) then view_known args else Z.to_nat a * view_known args.
Proof.
  unfold view_known. rewrite filter_cons.
  destruct (decide (a = (-1)%Z)) as [->|Hne].
  - by rewrite decide_False by lia.
  - by rewrite decide_True by exact Hne.
Qed.

Lemma view_known_no_minus_one (args : list Z) :
  filter (fun a => a = (-1)%Z) args = [] ->
  view_known args = numel (map Z.to_nat args).
Proof.
  induction args as [|a args IH]; [reflexivity|].
  rewrite filter_cons, view_known_cons.
  destruct (decide (a = (-1)%Z)) as [->|Hne]; [discriminate|].
  intros Hf. cbn [map]. rewrite numel_cons. f_equal. apply (IH Hf).
Qed.

Lemma view_inferred_numel (args : list Z) (q : nat) :
  length (filter (fun a => a = (-1)%Z) args) = 1 ->
  numel (map (fun a => if decide (a = (-1)%Z) then q else Z.to_nat a) args)
  = q * view_known args.
Proof.
  induction args as [|a args IH]; [discriminate|].
  rewrite filter_cons, view_known_cons. cbn [map]. rewrite numel_cons.
  destruct (decide (a = (-1)%Z)) as [->|Hne].
  - cbn [length]. intros Hlen. injection Hlen as Hlen.
    apply length_zero_iff_nil in Hlen.
    rewrite (view_known_no_minus_one args Hlen).
    f_equal. f_equal. apply map_ext_in. intros b Hb.
    destruct (decide (b = (-1)%Z)) as [->|]; [|reflexivity].
    exfalso. apply list_elem_of_In in Hb.
    assert (Hin : (-1)%Z ∈ filter (fun a => a = (-1)%Z) args)
      by (apply list_elem_of_filter; done).
    rewrite Hlen in Hin. by apply elem_of_nil in Hin.
  - intros Hlen. rewrite (IH Hlen). lia.
Qed.

(** X1.  A view never changes the number of elements, and has one dimension per
    argument. *)
Theorem view_shape_keeps_numel (input : Size) (args : list Z) (s : Size) :
  view_shape input args = Some s ->
  numel s = numel input /\ length s = length args.
Proof.
  unfold view_shape. destruct (decide (Exists _ args)); [discriminate|].
  destruct (length (filter (fun a => a = (-1)%Z) args)) as [|[|k]] eqn:Hminus;
    [| |discriminate].
  - destruct (decide (numel input = view_known args)) as [Heq|]; [|discriminate].
    intros [= <-]. rewrite length_map. split; [|reflexivity].
    rewrite Heq. symmetry. apply view_known_no_minus_one.
    by apply length_zero_iff_nil.
  - destruct (decide (0 < view_known args ∧ numel input mod view_known args = 0))
      as [[Hpos Hmod]|]; [|discriminate].
    intros [= <-]. rewrite length_map. split; [|reflexivity].
    rewrite (view_inferred_numel args _ Hminus).
    pose proof (Nat.div_mod_eq (numel input) (view_known args)) as Hdm.
    rewrite Hmod in Hdm. lia.
Qed.

(** The two views of the tensor tour: [x.view(16)] and [x.view(-1, 8)] of a
    4x4 tensor. *)
Lemma view_shape_keeps_numel_witness :
  numel [2; 8] = numel [4; 4] /\ length [2; 8] = length [(-1)%Z; 8%Z].
Proof. apply (view_shape_keeps_numel [4; 4] [(-1)%Z; 8%Z] [2; 8]). reflexivity. Defined.

Lemma flatten_shape_any (batch : nat) (rest : Size) :
  view_shape (batch :: rest) [(-1)%Z; Z.of_nat (num_flat_features (batch :: rest))]
  = if decide (0 < numel rest) then Some [batch; numel rest] else None.
Proof.
  assert (Hn : num_flat_features (batch :: rest) = numel rest).
  { unfold num_flat_features. cbn [tail]. rewrite fold_left_mul_numel. lia. }
  rewrite Hn. set (n := numel rest).
  unfold view_shape. rewrite decide_False.
  2:{ rewrite Exists_cons, Exists_cons, Exists_nil. lia. }
  assert (Hk : view_known [(-1)%Z; Z.of_nat n] = n).
  { rewrite !view_known_cons, decide_True by reflexivity.
    rewrite decide_False by lia. cbn. lia. }
  rewrite Hk.
  rewrite !filter_cons, decide_True by reflexivity. rewrite decide_False by lia.
  rewrite filter_nil. cbn [length].
  assert (Hnumel : numel (batch :: rest) = batch * n) by reflexivity.
  rewrite Hnumel.
  destruct (decide (0 < n)) as [Hpos|Hzero].
  - rewrite decide_True by (split; [exact Hpos | apply Nat.Div0.mod_mul]).
    cbn [map]. rewrite decide_True by reflexivity. rewrite decide_False by lia.
    rewrite Nat.div_mul by lia. by rewrite Nat2Z.id.
  - rewrite decide_False by lia. reflexivity.
Qed.

(** X2.  The flattening line of [Net.forward], [x.view(-1, self.num_flat_features(x))],
    on an input of any size with a leading batch dimension: it yields
    [batch; features] when the feature count is positive and is rejected when
    it is zero. *)
Theorem flatten_any_size (batch : nat) (rest : Size) :
  view_shape (batch :: rest) [(-1)%Z; Z.of_nat (num_flat_features (batch :: rest))]
  = if decide (0 < numel rest) then Some [batch; numel rest] else None.
Proof. apply flatten_shape_any. Qed.

(* ===================================================================== *)
(** * Further properties: the forward pass on any input                  *)
(* ===================================================================== *)

Section ForwardAnyInput.
Context {Tensor : Type} {ops : TensorOps Tensor} {nn : TorchNN Tensor}.

Lemma Net_forward_chain (n : loc) (W : nat -> Tensor) (s : Session Tensor)
    (x : Tensor) :
  params_at n W (store s) ->
  (Net_forward (net_at n) x s).1 = spec_forward W x.
Proof.
  intros HP.
  destruct (HP 0 ltac:(lia)) as [g0 H0]. destruct (HP 1 ltac:(lia)) as [g1 H1].
  destruct (HP 2 ltac:(lia)) as [g2 H2]. destruct (HP 3 ltac:(lia)) as [g3 H3].
  destruct (HP 4 ltac:(lia)) as [g4 H4]. destruct (HP 5 ltac:(lia)) as [g5 H5].
  destruct (HP 6 ltac:(lia)) as [g6 H6]. destruct (HP 7 ltac:(lia)) as [g7 H7].
  destruct (HP 8 ltac:(lia)) as [g8 H8]. destruct (HP 9 ltac:(lia)) as [g9 H9].
  rewrite <- (add_log_nil s).
  unfold spec_forward, spec_conv_stack, spec_flatten, spec_classifier.
  unfold Net_forward, bind.
  rewrite (call_layer_conv2d (net_at n) "conv1" x s _ _ _ _ _ _ _ _ _ eq_refl H0 H1).
  cbn [data]. destruct (F_conv2d x (W 0) (Some (W 1)) (1, 1)) as [c1|e]; [|reflexivity].
  cbn [and_then]. rewrite relu_run. destruct (F_relu c1) as [r1|e]; [|reflexivity].
  cbn [and_then]. rewrite max_pool2d_run. cbn [_pair].
  destruct (F_max_pool2d r1 (2, 2)) as [p1|e]; [|reflexivity]. cbn [and_then].
  rewrite (call_layer_conv2d (net_at n) "conv2" p1 s _ _ _ _ _ _ _ _ _ eq_refl H2 H3).
  cbn [data]. destruct (F_conv2d p1 (W 2) (Some (W 3)) (1, 1)) as [c2|e]; [|reflexivity].
  cbn [and_then]. rewrite relu_run. destruct (F_relu c2) as [r2|e]; [|reflexivity].
  cbn [and_then]. rewrite max_pool2d_run. cbn [_pair].
  destruct (F_max_pool2d r2 (2, 2)) as [p2|e]; [|reflexivity]. cbn [and_then].
  rewrite view_run.
  assert (Hnf : num_flat_features (t_size p2) = numel (tail (t_size p2))).
  { unfold num_flat_features. cbv zeta. rewrite fold_left_mul_numel. lia. }
  rewrite Hnf.
  destruct (t_view p2 _) as [v|e]; [|reflexivity]. cbn [and_then].
  rewrite (call_layer_linear (net_at n) "fc1" v s _ _ _ _ _ _ _ eq_refl H4 H5).
  cbn [data]. destruct (F_linear v (W 4) (Some (W 5))) as [f1|e]; [|reflexivity].
  cbn [and_then]. rewrite relu_run. destruct (F_relu f1) as [r3|e]; [|reflexivity].
  cbn [and_then].
  rewrite (call_layer_linear (net_at n) "fc2" r3 s _ _ _ _ _ _ _ eq_refl H6 H7).
  cbn [data]. destruct (F_linear r3 (W 6) (Some (W 7))) as [f2|e]; [|reflexivity].
  cbn [and_then]. rewrite relu_run. destruct (F_relu f2) as [r4|e]; [|reflexivity].
  cbn [and_then].
  rewrite (call_layer_linear (net_at n) "fc3" r4 s _ _ _ _ _ _ _ eq_refl H8 H9).
  cbn [data]. destruct (F_linear r4 (W 8) (Some (W 9))) as [y|e]; reflexivity.
Qed.

(** X3.  Whatever the input, [Net.forward] on the network [Net()] built returns
    what the chain of twelve calls returns, and raises what the first failing
    call of the chain raises. *)
Theorem Net_forward_refines_chain (n : loc) (W : nat -> Tensor) (s : Session Tensor)
    (x : Tensor) :
  params_at n W (store s) ->
  (Net_forward (net_at n) x s).1 = spec_forward W x.
Proof. apply Net_forward_chain. Qed.

(** ** What the forward pass never does *)

Lemma logs_ret {A} (a : A) : logs_at_most (Tensor := Tensor) 0 (ret a).
Proof. intros s. exists []. by rewrite add_log_nil. Qed.

Lemma logs_raise {A} (e : exn) : logs_at_most (Tensor := Tensor) 0 (@raise _ A e).
Proof. intros s. exists []. by rewrite add_log_nil. Qed.

Lemma logs_lift {A} (r : result A) : logs_at_most (Tensor := Tensor) 0 (lift r).
Proof. intros s. exists []. by rewrite add_log_nil. Qed.

Lemma logs_emit (c : Call) : logs_at_most (Tensor := Tensor) 1 (emit c).
Proof. intros s. by exists [c]. Qed.

Lemma logs_deref (p : loc) : logs_at_most (Tensor := Tensor) 0 (deref p).
Proof.
  intros s. exists []. rewrite add_log_nil. unfold deref. by destruct (store s !! p).
Qed.

Lemma logs_bind {A B} (j k : nat) (m : M (Session Tensor) A)
    (f : A -> M (Session Tensor) B) :
  logs_at_most (Tensor := Tensor) j m -> (forall a, logs_at_most (Tensor := Tensor) k (f a)) -> logs_at_most (Tensor := Tensor) (j + k) (bind m f).
Proof.
  intros Hm Hf s. destruct (Hm s) as (c1 & Hs1 & Hl1). unfold bind.
  destruct (m s) as [[a|e] s1]; cbn in Hs1; subst s1.
  - destruct (Hf a (add_log s c1)) as (c2 & Hs2 & Hl2).
    exists (c1 ++ c2). rewrite Hs2, add_log_app, length_app. split; [done|lia].
  - exists c1. cbn. split; [done|lia].
Qed.

Lemma logs_weaken {A} (j k : nat) (m : M (Session Tensor) A) :
  j <= k -> logs_at_most (Tensor := Tensor) j m -> logs_at_most (Tensor := Tensor) k m.
Proof. intros Hjk Hm s. destruct (Hm s) as (c & Hs & Hl). exists c. split; [done|lia]. Qed.

Lemma logs_deref_opt (p : option loc) : logs_at_most (Tensor := Tensor) 0 (deref_opt p).
Proof.
  destruct p as [l|]; [|apply logs_ret].
  apply (logs_bind 0 0); [apply logs_deref | intros; apply logs_ret].
Qed.

Lemma logs_call_layer (self : Net) (name : string) (x : Tensor) :
  logs_at_most (Tensor := Tensor) 1 (call_layer self name x).
Proof.
  unfold call_layer, getattr.
  apply (logs_bind 0 1).
  { destruct (odict_get _ _); [apply logs_ret | apply logs_raise]. }
  intros [i o k st w b|i o w b].
  - apply (logs_bind 0 1); [apply logs_deref|]. intros wp.
    apply (logs_bind 0 1); [apply logs_deref_opt|]. intros bp.
    apply (logs_bind 1 0); [apply logs_emit | intros; apply logs_lift].
  - apply (logs_bind 0 1); [apply logs_deref|]. intros wp.
    apply (logs_bind 0 1); [apply logs_deref_opt|]. intros bp.
    apply (logs_bind 1 0); [apply logs_emit | intros; apply logs_lift].
Qed.

Lemma logs_relu (x : Tensor) : logs_at_most (Tensor := Tensor) 1 (relu x).
Proof. apply (logs_bind 1 0); [apply logs_emit | intros; apply logs_lift]. Qed.

Lemma logs_max_pool2d (x : Tensor) (k : IntOrPair) : logs_at_most (Tensor := Tensor) 1 (max_pool2d x k).
Proof. apply (logs_bind 1 0); [apply logs_emit | intros; apply logs_lift]. Qed.

Lemma logs_view (x : Tensor) (args : list Z) : logs_at_most (Tensor := Tensor) 1 (view x args).
Proof. apply (logs_bind 1 0); [apply logs_emit | intros; apply logs_lift]. Qed.


End ForwardAnyInput.

(** ** Which input sizes the network accepts *)

Lemma conv5_shape (b c oc h w : nat) :
  conv2d_shape [b; c; h; w] [oc; c; 5; 5] (Some [oc]) (1, 1)
  = if decide (5 <= h ∧ 5 <= w) then Some [b; oc; h - 4; w - 4] else None.
Proof.
  unfold conv2d_shape. cbn [fst snd].
  destruct (decide (5 <= h ∧ 5 <= w)) as [[Hh Hw]|Hno].
  - rewrite decide_True by (intuition lia).
    rewrite !Nat.div_1_r. do 4 f_equal; [lia | f_equal; lia].
  - rewrite decide_False by (intuition lia). reflexivity.
Qed.

Lemma pool2_any_shape (b c h w : nat) :
  max_pool2d_shape [b; c; h; w] (2, 2)
  = if decide (2 <= h ∧ 2 <= w) then Some [b; c; h / 2; w / 2] else None.
Proof.
  unfold max_pool2d_shape. cbn [fst snd].
  destruct (decide (2 <= h ∧ 2 <= w)) as [[Hh Hw]|Hno].
  - rewrite decide_True by lia.
    do 4 f_equal; [|f_equal]; zify; Z.div_mod_to_equations; lia.
  - rewrite decide_False by lia. reflexivity.
Qed.

Lemma forward_sizes (batch h w : nat) (s0 : Session Size) :
  (Net_forward (net_at (next_id s0)) [batch; 1; h; w] (init_session s0)).1
  = if decide (16 <= h ∧ 16 <= w ∧ pooled h * pooled w = 25)
    then Ok [batch; 10]
    else Raise (RuntimeError "size mismatch").
Proof.
  rewrite (Net_forward_chain (next_id s0) (init_tensor s0) (init_session s0)
             [batch; 1; h; w] (params_at_init s0)).
  unfold spec_forward, spec_conv_stack, spec_flatten, spec_classifier, pooled.
  cbn [F_conv2d F_relu F_max_pool2d F_linear t_view t_size shape_nn shape_ops
       init_tensor t_random param_sizes nth].
  rewrite conv5_shape.
  destruct (decide (5 <= h ∧ 5 <= w)) as [[Hh1 Hw1]|Hno];
    [|cbn [shape_call and_then]; rewrite decide_False by lia; reflexivity].
  cbn [shape_call and_then]. rewrite pool2_any_shape.
  destruct (decide (2 <= h - 4 ∧ 2 <= w - 4)) as [[Hh2 Hw2]|Hno];
    [|cbn [shape_call and_then]; rewrite decide_False by lia; reflexivity].
  cbn [shape_call and_then]. rewrite conv5_shape.
  destruct (decide (5 <= (h - 4) / 2 ∧ 5 <= (w - 4) / 2)) as [[Hh3 Hw3]|Hno];
    [|cbn [shape_call and_then]; rewrite decide_False
        by (zify; Z.div_mod_to_equations; lia); reflexivity].
  cbn [shape_call and_then]. rewrite pool2_any_shape.
  destruct (decide (2 <= (h - 4) / 2 - 4 ∧ 2 <= (w - 4) / 2 - 4)) as [[Hh4 Hw4]|Hno];
    [|cbn [shape_call and_then]; rewrite decide_False
        by (zify; Z.div_mod_to_equations; lia); reflexivity].
  cbn [shape_call and_then].
  set (hp := ((h - 4) / 2 - 4) / 2) in *. set (wp := ((w - 4) / 2 - 4) / 2) in *.
  assert (Hhp : 1 <= hp) by (unfold hp; zify; Z.div_mod_to_equations; lia).
  assert (Hwp : 1 <= wp) by (unfold wp; zify; Z.div_mod_to_equations; lia).
  assert (H16h : 16 <= h) by (zify; Z.div_mod_to_equations; lia).
  assert (H16w : 16 <= w) by (zify; Z.div_mod_to_equations; lia).
  pose proof (flatten_shape_any batch [16; hp; wp]) as Hflat.
  assert (Hnf : num_flat_features [batch; 16; hp; wp] = numel [16; hp; wp]).
  { unfold num_flat_features. cbn [tail]. rewrite fold_left_mul_numel. lia. }
  rewrite Hnf in Hflat. cbn [tail]. rewrite Hflat.
  assert (Hne : numel [16; hp; wp] = 16 * (hp * wp)) by (cbn; lia).
  rewrite decide_True by (rewrite Hne; nia).
  cbn [shape_call and_then]. rewrite Hne.
  unfold linear_shape at 1.
  destruct (decide (hp * wp = 25)) as [H25|Hn25].
  - rewrite decide_True by (split; [lia | by right]).
    cbn [shape_call and_then]. rewrite fc_shape. cbn [shape_call and_then].
    rewrite fc_shape. cbn [shape_call]. by rewrite decide_True by lia.
  - rewrite decide_False by lia. cbn [shape_call and_then].
    by rewrite decide_False by lia.
Qed.

(** X5.  Through sizes: on a batch of 1-channel [h] x [w] images, [Net.forward]
    returns [batch; 10] exactly when both sides are at least 16 and the
    pooled feature map has 25 positions (so that 16 * 25 = 400 features reach
    fc1); on any other size it raises the framework's size error. *)
Theorem Net_forward_accepted_sizes (batch h w : nat) (s0 : Session Size) :
  (Net_forward (net_at (next_id s0)) [batch; 1; h; w] (init_session s0)).1
  = if decide (16 <= h ∧ 16 <= w ∧ pooled h * pooled w = 25)
    then Ok [batch; 10]
    else Raise (RuntimeError "size mismatch").
Proof. apply forward_sizes. Qed.

(** X6.  For square images, the accepted sides are 32 to 35. *)
Theorem Net_forward_accepted_squares (batch h : nat) (s0 : Session Size) :
  (Net_forward (net_at (next_id s0)) [batch; 1; h; h] (init_session s0)).1
  = if decide (32 <= h <= 35) then Ok [batch; 10]
    else Raise (RuntimeError "size mismatch").
Proof.
  rewrite forward_sizes. unfold pooled.
  destruct (decide (32 <= h <= 35)) as [Hin|Hout].
  - rewrite decide_True; [reflexivity|].
    assert (((h - 4) / 2 - 4) / 2 = 5) as -> by (zify; Z.div_mod_to_equations; lia).
    lia.
  - rewrite decide_False; [reflexivity|]. intros (Hh & _ & H25).
    assert (((h - 4) / 2 - 4) / 2 = 5) as H5 by nia.
    apply Hout. zify. Z.div_mod_to_equations. lia.
Qed.

(* ===================================================================== *)
(** * Further properties: the update loop                                *)
(* ===================================================================== *)

Lemma yield_unseen_fresh (memo : gset loc) (ps : list loc) :
  NoDup ps -> (forall p, p ∈ ps -> p ∉ memo) -> yield_unseen memo ps = ps.
Proof.
  revert memo. induction ps as [|q ps IH]; intros memo Hnd Hfresh; [reflexivity|].
  apply NoDup_cons in Hnd as [Hq Hnd]. cbn [yield_unseen].
  rewrite decide_False by (apply Hfresh; set_solver).
  f_equal. apply IH; [exact Hnd|].
  intros p Hp. specialize (Hfresh p). set_solver.
Qed.

(** X7.  [net.parameters()] yields the weight of every registered layer and
    its bias when it has one, and nothing else, a shared object once; when the
    layers share no object the order is: layer by layer in registration
    order, the weight before the bias.  For [Net()] these are the ten objects
    created by [__init__], in the order conv1.weight, conv1.bias,
    conv2.weight, ..., fc3.bias. *)
Theorem parameters_registered (net : Net) (p : loc) (n : loc) :
  NoDup (parameters net) /\
  (p ∈ parameters net <->
   exists name layer,
     (name, layer) ∈ _modules net /\
     match layer with
     | Conv2d _ _ _ _ weight bias | Linear _ _ weight bias =>
         p = weight \/ bias = Some p
     end) /\
  (let owned :=
     flat_map (fun nl => match nl.2 with
                         | Conv2d _ _ _ _ weight bias | Linear _ _ weight bias =>
                             weight :: match bias with
                                       | Some b => [b]
                                       | None => []
                                       end
                         end) (_modules net) in
   NoDup owned -> parameters net = owned) /\
  parameters (net_at n)
  = [n; 1 + n; 2 + n; 3 + n; 4 + n; 5 + n; 6 + n; 7 + n; 8 + n; 9 + n].
Proof.
  split; [apply parameters_NoDup|]. split; [|split].
  - unfold parameters. rewrite (proj2 (yield_unseen_spec ∅ _) p).
    rewrite list_elem_of_In, in_flat_map. split.
    + intros [([name layer] & Hin & Hp) _]. exists name, layer.
      rewrite list_elem_of_In. split; [exact Hin|].
      cbn [snd] in Hp. destruct layer as [? ? ? ? w [b|]|? ? w [b|]];
        cbn in Hp; intuition congruence.
    + intros (name & layer & Hin & Hp). split; [|set_solver].
      exists (name, layer). rewrite <- list_elem_of_In. split; [exact Hin|].
      cbn [snd]. destruct layer as [? ? ? ? w [b|]|? ? w [b|]]; cbn;
        destruct Hp as [->|Hb]; try discriminate; try (injection Hb as ->); auto.
  - cbv zeta. intros Hnd.
    assert (Hsame : forall ms : list (string * Layer),
              flat_map (fun nl => layer_parameters nl.2) ms
              = flat_map (fun nl => match nl.2 with
                                    | Conv2d _ _ _ _ weight bias
                                    | Linear _ _ weight bias =>
                                        weight :: match bias with
                                                  | Some b => [b]
                                                  | None => []
                                                  end
                                    end) ms).
    { induction ms as [|[name layer] ms IH]; [reflexivity|]. cbn [flat_map].
      rewrite IH. by destruct layer as [? ? ? ? w [b|]|? ? w [b|]]. }
    unfold parameters. rewrite Hsame. apply yield_unseen_fresh; [exact Hnd|].
    set_solver.
  - apply parameters_net_at.
Qed.

(** X8.  Assigning a layer to a name and reading names back: the name reads as
    the layer just assigned, other names read as before, and the number of
    registered layers grows by one exactly when the name is new. *)
Theorem setattr_getattr (self : Net) (name other : string) (value : Layer) :
  odict_get (_modules (setattr self name value)) name = Some value /\
  (other ≠ name ->
   odict_get (_modules (setattr self name value)) other
   = odict_get (_modules self) other) /\
  length (_modules (setattr self name value))
  = match odict_get (_modules self) name with
    | Some _ => length (_modules self)
    | None => S (length (_modules self))
    end.
Proof.
  destruct self as [d]. cbn [setattr _modules].
  induction d as [|[k v] d (IH1 & IH2 & IH3)]; cbn [odict_set odict_get].
  - rewrite decide_True by reflexivity. split; [reflexivity|]. split; [|reflexivity].
    intros Hne. by rewrite decide_False.
  - destruct (decide (name = k)) as [->|Hne]; cbn [odict_get length].
    + rewrite decide_True by reflexivity. split; [reflexivity|].
      split; [|reflexivity]. intros Ho. by rewrite !decide_False.
    + rewrite decide_False by exact Hne. split; [exact IH1|]. split.
      * intros Ho. destruct (decide (other = k)); [reflexivity | by apply IH2].
      * rewrite IH3. by destruct (odict_get d name).
Qed.

Section UpdateEdgeCases.
Context {Tensor : Type} {ops : TensorOps Tensor}.

Lemma for_each_app {A} (xs ys : list A) (body : A -> M (Session Tensor) unit)
    (s : Session Tensor) :
  for_each (xs ++ ys) body s = (for_each xs body ;;; for_each ys body) s.
Proof.
  revert s. induction xs as [|x xs IH]; intros s; cbn [app for_each]; [reflexivity|].
  unfold bind. destruct (body x s) as [[[]|e] s1]; [|reflexivity].
  rewrite IH. reflexivity.
Qed.

(** X9.  The update loop stops at the first parameter whose [grad] is [None]: it
    raises [AttributeError]; the parameters before it have been updated, that
    parameter and all later ones are as they were. *)
Theorem manual_update_stops_at_missing_grad (net : Net) (s : Session Tensor)
    (before after : list loc) (f : loc) (d : Tensor) :
  parameters net = before ++ f :: after ->
  (forall f', f' ∈ before ->
     exists d g, store s !! f' = Some (mkParam d (Some g)) /\ t_size g = t_size d) ->
  store s !! f = Some (mkParam d None) ->
  exists s',
    manual_update net s
    = (Raise (AttributeError "'NoneType' object has no attribute 'data'"), s') /\
    (forall f' d g, f' ∈ before -> store s !! f' = Some (mkParam d (Some g)) ->
       exists d', t_sub d (t_mul_scalar g learning_rate) = Ok d' /\
                  store s' !! f' = Some (mkParam d' (Some g))) /\
    (forall f', f' ∉ before -> store s' !! f' = store s !! f') /\
    log s' = log s ++ flat_map (fun f => [CallMulScalar f; CallSubInplace f]) before.
Proof.
  intros Hps Hbefore Hf.
  pose proof (parameters_NoDup net) as Hnd. rewrite Hps in Hnd.
  apply NoDup_app in Hnd as (Hnd1 & Hdisj & _).
  destruct (update_loop_run before s Hnd1 Hbefore) as (s1 & Hrun & Hupd & Hframe & Hlog).
  exists s1. split; [|split; [exact Hupd | split; [exact Hframe | exact Hlog]]].
  unfold manual_update. rewrite Hps, for_each_app. unfold bind at 1. rewrite Hrun.
  cbn [for_each]. unfold bind at 1. unfold update_parameter, bind at 1. unfold deref.
  rewrite Hframe by (intros Hin; apply (Hdisj f Hin); by left).
  rewrite Hf. reflexivity.
Qed.

End UpdateEdgeCases.

(** Witness: the update cell run right after [Net()], before any backward
    pass, raises at the first parameter and changes nothing. *)
Lemma manual_update_stops_at_missing_grad_witness :
  exists s' : Session Size,
    manual_update (net_at 0) (init_session empty_session)
    = (Raise (AttributeError "'NoneType' object has no attribute 'data'"), s') /\
    (forall f' d g, f' ∈ [] -> store (init_session empty_session) !! f'
                                = Some (mkParam d (Some g)) ->
       exists d', t_sub d (t_mul_scalar g learning_rate) = Ok d' /\
                  store s' !! f' = Some (mkParam d' (Some g))) /\
    (forall f', f' ∉ [] -> store s' !! f' = store (init_session empty_session) !! f') /\
    log s' = log (init_session empty_session)
             ++ flat_map (fun f => [CallMulScalar f; CallSubInplace f]) [].
Proof.
  apply (manual_update_stops_at_missing_grad (net_at 0) (init_session empty_session)
           [] [1; 2; 3; 4; 5; 6; 7; 8; 9] 0 [6; 1; 5; 5]).
  - apply parameters_net_at.
  - intros f' Hf'. by apply elem_of_nil in Hf'.
  - reflexivity.
Defined.

(** ** Zero gradients, in float32 *)

Lemma f32_sub_zero (x : f32) : f32_sub x f32_zero = x.
Proof. destruct x as [[]| | |]; reflexivity. Qed.

Lemma f32_zero_mul_rate : f32_mul f32_zero (f32_of_float learning_rate) = f32_zero.
Proof. reflexivity. Qed.

Lemma vec_sub_zeros (d : list f32) : vec_sub d (repeat f32_zero (length d)) = d.
Proof.
  induction d as [|x d IH]; [reflexivity|]. cbn [length repeat vec_sub].
  by rewrite f32_sub_zero, IH.
Qed.

(** X10.  On float32 tensors, a parameter whose gradient buffer holds zeros (what
    zeroing the gradients leaves) is not changed by the update, whatever it
    holds: the whole update cell is then a no-op on the parameter objects. *)
Theorem manual_update_zero_grad (net : Net) (s : Session (list f32)) :
  (forall f, f ∈ parameters net ->
     exists d : list f32,
       store s !! f = Some (mkParam d (Some (repeat f32_zero (length d))))) ->
  exists s', manual_update net s = (Ok tt, s') /\ store s' = store s.
Proof.
  intros Hzero.
  destruct (update_loop_run (parameters net) s (parameters_NoDup net))
    as (s' & Hrun & Hupd & Hframe & _).
  { intros f Hf. destruct (Hzero f Hf) as [d Hd]. eexists _, _. split; [exact Hd|].
    cbn. by rewrite repeat_length. }
  exists s'. split; [exact Hrun|]. apply map_eq. intros f.
  destruct (decide (f ∈ parameters net)) as [Hin|Hnin]; [|by apply Hframe].
  destruct (Hzero f Hin) as [d Hd].
  destruct (Hupd f _ _ Hin Hd) as (d' & Hd' & Hs'). rewrite Hs', Hd. do 2 f_equal.
  cbn in Hd'. unfold f32vec_sub in Hd'.
  rewrite decide_True in Hd' by (by rewrite length_map, repeat_length).
  injection Hd' as <-.
  assert (Hmap : map (fun x => f32_mul x (f32_of_float learning_rate))
                     (repeat f32_zero (length d))
                 = repeat f32_zero (length d)).
  { generalize (length d). intros k. induction k as [|k IH]; [reflexivity|].
    cbn [repeat map]. rewrite IH. reflexivity. }
  rewrite Hmap. apply vec_sub_zeros.
Qed.

(** Witness: ten float32 parameters with zeroed gradient buffers. *)
Lemma manual_update_zero_grad_witness :
  exists s', manual_update (net_at 0) zeroed_session = (Ok tt, s') /\
             store s' = store zeroed_session.
Proof.
  apply (manual_update_zero_grad (net_at 0) zeroed_session).
  intros f Hf. rewrite parameters_net_at in Hf. cbn in Hf.
  repeat (apply elem_of_cons in Hf as [->|Hf]);
    try (by apply elem_of_nil in Hf);
    exists [f32_of_Z 1; f32_of_Z 2]; reflexivity.
Defined.

(* ===================================================================== *)
(** * Further properties: the addition cells                             *)
(* ===================================================================== *)

Lemma SFadd_comm (prec emax : Z) (x y : spec_float) :
  SFadd prec emax x y = SFadd prec emax y x.
Proof.
  destruct x as [sx|sx| |sx mx ex], y as [sy|sy| |sy my ey]; try reflexivity.
  - by destruct sx, sy.
  - by destruct sx, sy.
  - cbn [SFadd]. by rewrite Z.min_comm, Z.add_comm.
Qed.

Lemma zip_with_f32_add_comm (a b : list f32) :
  zip_with f32_add a b = zip_with f32_add b a.
Proof.
  revert b. induction a as [|x a IH]; intros [|y b]; cbn [zip_with]; try reflexivity.
  f_equal; [apply SFadd_comm | apply IH].
Qed.

(** X11.  The four ways of adding print the same tensor, whatever the operands and
    whatever the uninitialised [result] held; afterwards [x] is unchanged
    while [y] and [result] both hold the sum. *)
Theorem addition_cells_agree (t : Tour) (x : loc) (vx rand uninit : list f32) :
  storages t !! x = Some vx ->
  x < tour_next t ->
  length rand = length vx ->
  exists t',
    addition_cells x rand uninit t = (Ok (tour_next t, 3 + tour_next t), t') /\
    tour_out t' = tour_out t ++ repeat (zip_with f32_add vx rand) 4 /\
    storages t' !! x = Some vx /\
    storages t' !! tour_next t = Some (zip_with f32_add vx rand) /\
    storages t' !! (3 + tour_next t) = Some (zip_with f32_add vx rand).
Proof.
  intros Hx Hlt Hlen. destruct t as [st n out]. cbn in *.
  assert (Hsum : vec_add vx rand = Ok (zip_with f32_add vx rand)).
  { unfold vec_add. by rewrite decide_True. }
  assert (Hsum' : vec_add rand vx = Ok (zip_with f32_add vx rand)).
  { unfold vec_add. rewrite decide_True by done. by rewrite zip_with_f32_add_comm. }
  eexists. split; [|split; [|split; [|split]]].
  - unfold addition_cells, torch_add, torch_add_out, tensor_add_, tour_print,
      tour_read, tour_alloc, tour_write, bind, lift, ret. cbn.
    repeat (rewrite ?lookup_insert_eq, ?(lookup_insert_ne _ _ x) by lia;
            rewrite ?Hx; cbn; rewrite ?Hsum, ?Hsum'; cbn;
            repeat (rewrite lookup_insert_ne by lia)).
    reflexivity.
  - cbn. rewrite <- !app_assoc. reflexivity.
  - cbn. repeat (rewrite lookup_insert_ne by lia). exact Hx.
  - cbn. rewrite lookup_insert_eq. reflexivity.
  - cbn. rewrite lookup_insert_ne by lia. rewrite lookup_insert_eq. reflexivity.
Qed.

(** Witness of [addition_cells_agree]: two-element tensors, [x] = (1, 2) at
    block 0, [rand] = (0.5, 0.25), and an uninitialised tensor holding
    infinities. *)
Lemma addition_cells_agree_witness :
  let t := mkTour {[0 := [f32_of_Z 1; f32_of_Z 2]]} 1 [] in
  let rand := [f32_of_float 0.5%float; f32_of_float 0.25%float] in
  let sum := zip_with f32_add [f32_of_Z 1; f32_of_Z 2] rand in
  exists t',
    addition_cells 0 rand [S754_infinity false; S754_infinity true] t
    = (Ok (1, 4), t') /\
    tour_out t' = [] ++ repeat sum 4 /\
    storages t' !! 0 = Some [f32_of_Z 1; f32_of_Z 2] /\
    storages t' !! 1 = Some sum /\
    storages t' !! 4 = Some sum.
Proof.
  apply (addition_cells_agree (mkTour {[0 := [f32_of_Z 1; f32_of_Z 2]]} 1 []) 0
           [f32_of_Z 1; f32_of_Z 2]
           [f32_of_float 0.5%float; f32_of_float 0.25%float]
           [S754_infinity false; S754_infinity true]).
  - reflexivity.
  - cbn. lia.
  - reflexivity.
Defined.

(* ===================================================================== *)
(** * Further properties: the line of labels                             *)
(* ===================================================================== *)

Lemma string_length_append (a b : string) :
  String.length (a ++ b) = String.length a + String.length b.
Proof. induction a as [|c a IH]; [reflexivity|]. simpl. f_equal. exact IH. Qed.

Lemma spaces_length (n : nat) : String.length (spaces n) = n.
Proof. induction n as [|n IH]; [reflexivity|]. simpl. f_equal. exact IH. Qed.

Lemma format_5s_length (s : string) :
  String.length (format_5s s) = Nat.max 5 (String.length s).
Proof. unfold format_5s. rewrite string_length_append, spaces_length. lia. Qed.

(** Every class name fits the field of five characters, and every index from
    -10 to 9 names a class. *)
Lemma classes_getitem (l : Z) :
  (-10 <= l < 10)%Z ->
  exists c, tuple_getitem classes l = inr c /\ String.length (format_5s c) = 5.
Proof.
  intros Hl.
  assert (Hcases : Exists (fun k => l = k)
            [-10; -9; -8; -7; -6; -5; -4; -3; -2; -1; 0; 1; 2; 3; 4; 5; 6; 7; 8; 9]%Z).
  { repeat (rewrite Exists_cons). lia. }
  repeat (apply Exists_cons in Hcases as [->|Hcases]; [eexists; split; reflexivity|]).
  by apply Exists_nil in Hcases.
Qed.

Lemma classes_getitem_out (l : Z) :
  ¬ (-10 <= l < 10)%Z ->
  tuple_getitem classes l = inl (IndexError "tuple index out of range").
Proof.
  intros Hl. unfold tuple_getitem. change (Z.of_nat (length classes)) with 10%Z.
  cbv zeta. destruct (decide (l < 0)%Z); by rewrite decide_False by lia.
Qed.

Lemma label_line_ok (labels : list Z) :
  4 <= length labels ->
  Forall (fun l => -10 <= l < 10)%Z (take 4 labels) ->
  exists line, label_line labels = inr line /\ String.length line = 23.
Proof.
  intros Hlen Hall.
  destruct labels as [|l0 [|l1 [|l2 [|l3 rest]]]]; cbn in Hlen; try lia.
  cbn [take] in Hall.
  apply Forall_cons in Hall as [H0 Hall]. apply Forall_cons in Hall as [H1 Hall].
  apply Forall_cons in Hall as [H2 Hall]. apply Forall_cons in Hall as [H3 _].
  destruct (classes_getitem l0 H0) as (c0 & E0 & L0).
  destruct (classes_getitem l1 H1) as (c1 & E1 & L1).
  destruct (classes_getitem l2 H2) as (c2 & E2 & L2).
  destruct (classes_getitem l3 H3) as (c3 & E3 & L3).
  unfold label_line. cbn [seq shown_labels labels_getitem lookup list_lookup].
  rewrite E0, E1, E2, E3. eexists. split; [reflexivity|].
  cbn [join]. rewrite !string_length_append, L0, L1, L2, L3. reflexivity.
Qed.

(** What the field of a class index shows: the class name behind the blanks
    that fill it to five characters. *)
Lemma classes_getitem_shown (l : Z) :
  (-10 <= l < 10)%Z ->
  exists c, tuple_getitem classes l = inr c /\ format_5s c = shown_class l.
Proof.
  intros Hl.
  assert (Hcases : Exists (fun k => l = k)
            [-10; -9; -8; -7; -6; -5; -4; -3; -2; -1; 0; 1; 2; 3; 4; 5; 6; 7; 8; 9]%Z).
  { repeat (rewrite Exists_cons). lia. }
  repeat (apply Exists_cons in Hcases as [->|Hcases]; [eexists; split; reflexivity|]).
  by apply Exists_nil in Hcases.
Qed.

Lemma shown_class_length (l : Z) : String.length (shown_class l) = 5.
Proof.
  unfold shown_class.
  assert (Hk : Z.to_nat (l mod 10) < 10) by lia.
  destruct (Z.to_nat (l mod 10)) as [|[|[|[|[|[|[|[|[|[|k]]]]]]]]]];
    first [reflexivity | lia].
Qed.

(** X12.  With at least four labels, the first four of them class indices (from -10
    to 9, a negative one counting from the end of [classes]), the line is
    printed and holds the four class names in the order of the labels, each
    right-justified by blanks in a field of five characters, with one blank
    between two fields: 23 characters. *)
Theorem label_line_width (labels : list Z) :
  4 <= length labels ->
  Forall (fun l => -10 <= l < 10)%Z (take 4 labels) ->
  exists line,
    label_line labels = inr line /\
    (exists l0 l1 l2 l3,
       take 4 labels = [l0; l1; l2; l3] /\
       line = (shown_class l0 ++ " " ++ shown_class l1 ++ " "
               ++ shown_class l2 ++ " " ++ shown_class l3)%string) /\
    String.length line = 23.
Proof.
  intros Hlen Hall.
  destruct labels as [|l0 [|l1 [|l2 [|l3 rest]]]]; cbn in Hlen; try lia.
  cbn [take] in Hall.
  apply Forall_cons in Hall as [H0 Hall]. apply Forall_cons in Hall as [H1 Hall].
  apply Forall_cons in Hall as [H2 Hall]. apply Forall_cons in Hall as [H3 _].
  destruct (classes_getitem_shown l0 H0) as (c0 & E0 & L0).
  destruct (classes_getitem_shown l1 H1) as (c1 & E1 & L1).
  destruct (classes_getitem_shown l2 H2) as (c2 & E2 & L2).
  destruct (classes_getitem_shown l3 H3) as (c3 & E3 & L3).
  unfold label_line. cbn [seq shown_labels labels_getitem lookup list_lookup].
  rewrite E0, E1, E2, E3, L0, L1, L2, L3. eexists. split; [reflexivity|]. split.
  - exists l0, l1, l2, l3. split; reflexivity.
  - cbn [join]. rewrite !string_length_append, !shown_class_length. reflexivity.
Qed.

(** The recorded batch: cat, car, car, ship. *)
Lemma label_line_width_witness :
  exists line,
    label_line [3; 1; 1; 8]%Z = inr line /\
    (exists l0 l1 l2 l3,
       take 4 [3; 1; 1; 8]%Z = [l0; l1; l2; l3] /\
       line = (shown_class l0 ++ " " ++ shown_class l1 ++ " "
               ++ shown_class l2 ++ " " ++ shown_class l3)%string) /\
    String.length line = 23.
Proof.
  apply (label_line_width [3; 1; 1; 8]%Z).
  - cbn. lia.
  - cbn. repeat constructor; lia.
Defined.

(** The line the notebook records for that batch. *)
Lemma label_line_recorded :
  label_line [3; 1; 1; 8]%Z = inr "  cat   car   car  ship"%string.
Proof. reflexivity. Qed.

(** X13.  The line raises [IndexError] in exactly the other cases: fewer than four
    labels, or one of the first four that is no class index. *)
Theorem label_line_fails (labels : list Z) :
  (exists msg, label_line labels = inl (IndexError msg))
  <-> ¬ (4 <= length labels /\ Forall (fun l => -10 <= l < 10)%Z (take 4 labels)).
Proof.
  split.
  - intros [msg Hfail] [Hlen Hall].
    destruct (label_line_ok labels Hlen Hall) as (line & Hline & _).
    rewrite Hline in Hfail. discriminate.
  - intros Hno. unfold label_line. cbn [seq shown_labels].
    assert (Hstep : forall l, (exists msg, tuple_getitem classes l = inl (IndexError msg))
                              \/ (-10 <= l < 10)%Z).
    { intros l. destruct (decide (-10 <= l < 10)%Z) as [|Hout]; [by right|].
      left. eexists. by apply classes_getitem_out. }
    destruct labels as [|l0 labels]; [by eexists|]. cbn [labels_getitem lookup list_lookup].
    destruct (Hstep l0) as [[m E0]|H0]; [rewrite E0; by eexists|].
    destruct (classes_getitem l0 H0) as (c0 & E0 & _). rewrite E0.
    destruct labels as [|l1 labels]; [by eexists|]. cbn [labels_getitem lookup list_lookup].
    destruct (Hstep l1) as [[m E1]|H1]; [rewrite E1; by eexists|].
    destruct (classes_getitem l1 H1) as (c1 & E1 & _). rewrite E1.
    destruct labels as [|l2 labels]; [by eexists|]. cbn [labels_getitem lookup list_lookup].
    destruct (Hstep l2) as [[m E2]|H2]; [rewrite E2; by eexists|].
    destruct (classes_getitem l2 H2) as (c2 & E2 & _). rewrite E2.
    destruct labels as [|l3 labels]; [by eexists|]. cbn [labels_getitem lookup list_lookup].
    destruct (Hstep l3) as [[m E3]|H3]; [rewrite E3; by eexists|].
    exfalso. apply Hno. split; [cbn; lia|]. cbn [take].
    repeat (apply Forall_cons; split; [assumption|]). rewrite take_0. constructor.
Qed.

(* ===================================================================== *)
(** * Further properties: instances of the network                       *)
(* ===================================================================== *)

Section Instances.
Context {Tensor : Type} {ops : TensorOps Tensor} {nn : TorchNN Tensor}.

Lemma init_store_lookup_old (s0 : Session Tensor) (l : loc) :
  l < next_id s0 -> init_store s0 !! l = store s0 !! l.
Proof.
  intros Hl. unfold init_store. cbn [seq foldl].
  by repeat (rewrite lookup_insert_ne by lia).
Qed.

(** X15.  Two networks built one after the other share no parameter object, and
    building the second leaves every parameter of the first as it was. *)
Theorem Net_instances_disjoint (s0 s1 s2 : Session Tensor) (net1 net2 : Net) :
  Net_init s0 = (Ok net1, s1) ->
  Net_init s1 = (Ok net2, s2) ->
  forall p, p ∈ parameters net1 ->
    (p ∉ parameters net2) /\ (store s2 !! p = store s1 !! p).
Proof.
  rewrite !Net_init_run. intros [= <- <-] [= <- <-] p Hp.
  rewrite parameters_net_at in Hp. apply list_elem_of_fmap in Hp as (i & -> & Hi).
  apply elem_of_seq in Hi. cbn [next_id init_session]. split.
  - rewrite parameters_net_at. intros Hq.
    apply list_elem_of_fmap in Hq as (j & Hj & _). lia.
  - cbn [store init_session]. apply init_store_lookup_old. cbn [next_id init_session]. lia.
Qed.

End Instances.

(** Witness: two networks built in an empty session, tensors seen through
    their size; the object looked at is the first network's [conv1.weight]. *)
Lemma Net_instances_disjoint_witness :
  (0 ∉ parameters (net_at 10)) /\
  (store (init_session (init_session (empty_session (Tensor := Size)))) !! 0
   = store (init_session (empty_session (Tensor := Size))) !! 0).
Proof.
  apply (Net_instances_disjoint empty_session (init_session empty_session)
           (init_session (init_session empty_session)) (net_at 0) (net_at 10)).
  - reflexivity.
  - reflexivity.
  - rewrite parameters_net_at. by left.
Defined.

(** Witness of [Net_forward_refines_chain]: a CIFAR10 batch (three channels)
    offered to the one-channel network, tensors seen through their size. *)
Lemma Net_forward_refines_chain_witness :
  (Net_forward (net_at 0) [4; 3; 32; 32] (init_session empty_session)).1
  = spec_forward (init_tensor empty_session) [4; 3; 32; 32].
Proof.
  apply (Net_forward_refines_chain 0 (init_tensor empty_session)
           (init_session empty_session) [4; 3; 32; 32]).
  apply (params_at_init empty_session).
Defined.

(* ===================================================================== *)
(** * Further properties: the range of pixel values                      *)
(* ===================================================================== *)

(** X14.  In float32, for every pixel byte: [ToTensor] gives a value in [0, 1],
    the transform a value in [-1, 1], and what [imshow] unnormalises lies in
    [0, 1] again; bytes 0 and 255 reach the ends of the ranges exactly. *)
Theorem transform_value_range (k : Byte.byte) :
  let p : f32 := ToTensor_value k in
  let v : f32 := transform_value k in
  let u : f32 := unnormalise_value v in
  (SFleb (f32_of_Z 0) p = true /\ SFleb p (f32_of_Z 1) = true) /\
  (SFleb (f32_of_Z (-1)) v = true /\ SFleb v (f32_of_Z 1) = true) /\
  (SFleb (f32_of_Z 0) u = true /\ SFleb u (f32_of_Z 1) = true) /\
  transform_value Byte.x00 = f32_of_Z (-1) /\
  transform_value Byte.xff = f32_of_Z 1.
Proof. destruct k; vm_compute; repeat split. Qed.

(* ===================================================================== *)
(** * Failures: what each cell does with an exception                    *)
(* ===================================================================== *)

Section CellOutcomes.
Context {Tensor : Type} {ops : TensorOps Tensor} {nn : TorchNN Tensor}.

(** The forward pass, outcome and calls: the result is that of the chain of
    calls (its first exception, if one raises), and the calls made are the
    first few of the twelve. *)
Lemma Net_forward_outcome (n : loc) (W : nat -> Tensor) (s : Session Tensor) (x : Tensor) :
  params_at n W (store s) ->
  exists k nf,
    Net_forward (net_at n) x s
    = (spec_forward W x, add_log s (take k (forward_calls nf))).
Proof.
  intros HP.
  destruct (HP 0 ltac:(lia)) as [g0 H0]. destruct (HP 1 ltac:(lia)) as [g1 H1].
  destruct (HP 2 ltac:(lia)) as [g2 H2]. destruct (HP 3 ltac:(lia)) as [g3 H3].
  destruct (HP 4 ltac:(lia)) as [g4 H4]. destruct (HP 5 ltac:(lia)) as [g5 H5].
  destruct (HP 6 ltac:(lia)) as [g6 H6]. destruct (HP 7 ltac:(lia)) as [g7 H7].
  destruct (HP 8 ltac:(lia)) as [g8 H8]. destruct (HP 9 ltac:(lia)) as [g9 H9].
  cut (exists k nf,
         Net_forward (net_at n) x (add_log s [])
         = (spec_forward W x, add_log s (take k (forward_calls nf)))).
  { by rewrite add_log_nil. }
  unfold spec_forward, spec_conv_stack, spec_flatten, spec_classifier.
  unfold Net_forward, bind.
  rewrite (call_layer_conv2d (net_at n) "conv1" x s _ _ _ _ _ _ _ _ _ eq_refl H0 H1).
  cbn [data]. destruct (F_conv2d x (W 0) (Some (W 1)) (1, 1)) as [c1|e];
    [|by exists 1, 0].
  cbn [and_then]. rewrite relu_run. destruct (F_relu c1) as [r1|e]; [|by exists 2, 0].
  cbn [and_then]. rewrite max_pool2d_run. cbn [_pair].
  destruct (F_max_pool2d r1 (2, 2)) as [p1|e]; [|by exists 3, 0]. cbn [and_then].
  rewrite (call_layer_conv2d (net_at n) "conv2" p1 s _ _ _ _ _ _ _ _ _ eq_refl H2 H3).
  cbn [data]. destruct (F_conv2d p1 (W 2) (Some (W 3)) (1, 1)) as [c2|e];
    [|by exists 4, 0].
  cbn [and_then]. rewrite relu_run. destruct (F_relu c2) as [r2|e]; [|by exists 5, 0].
  cbn [and_then]. rewrite max_pool2d_run. cbn [_pair].
  destruct (F_max_pool2d r2 (2, 2)) as [p2|e]; [|by exists 6, 0]. cbn [and_then].
  rewrite view_run.
  assert (Hnf : num_flat_features (t_size p2) = numel (tail (t_size p2))).
  { unfold num_flat_features. cbv zeta. rewrite fold_left_mul_numel. lia. }
  rewrite Hnf. set (nf := numel (tail (t_size p2))).
  destruct (t_view p2 _) as [v|e]; [|by exists 7, nf]. cbn [and_then].
  rewrite (call_layer_linear (net_at n) "fc1" v s _ _ _ _ _ _ _ eq_refl H4 H5).
  cbn [data]. destruct (F_linear v (W 4) (Some (W 5))) as [f1|e]; [|by exists 8, nf].
  cbn [and_then]. rewrite relu_run. destruct (F_relu f1) as [r3|e]; [|by exists 9, nf].
  cbn [and_then].
  rewrite (call_layer_linear (net_at n) "fc2" r3 s _ _ _ _ _ _ _ eq_refl H6 H7).
  cbn [data]. destruct (F_linear r3 (W 6) (Some (W 7))) as [f2|e]; [|by exists 10, nf].
  cbn [and_then]. rewrite relu_run. destruct (F_relu f2) as [r4|e]; [|by exists 11, nf].
  cbn [and_then].
  rewrite (call_layer_linear (net_at n) "fc3" r4 s _ _ _ _ _ _ _ eq_refl H8 H9).
  cbn [data]. destruct (F_linear r4 (W 8) (Some (W 9))) as [y|e]; by exists 12, nf.
Qed.

(** One iteration of the update loop, in every case. *)
Lemma update_parameter_outcome (f : loc) (s : Session Tensor) :
  update_parameter f s
  = match store s !! f with
    | None => (Raise (RuntimeError "no such object"), s)
    | Some p =>
        match grad p with
        | None =>
            (Raise (AttributeError "'NoneType' object has no attribute 'data'"), s)
        | Some g =>
            match t_sub (data p) (t_mul_scalar g learning_rate) with
            | Raise e => (Raise e, add_log s [CallMulScalar f; CallSubInplace f])
            | Ok d =>
                (Ok tt,
                 set_store (add_log s [CallMulScalar f; CallSubInplace f])
                           (alter (fun o => mkParam d (grad o)) f (store s)))
            end
        end
    end.
Proof.
  unfold update_parameter, bind, deref.
  destruct (store s !! f) as [p|]; [|reflexivity]. cbn.
  destruct (grad p) as [g|]; [|reflexivity]. cbn.
  destruct (t_sub (data p) (t_mul_scalar g learning_rate)) as [d|e]; cbn;
    unfold add_log, set_store; cbn; by rewrite <- app_assoc.
Qed.

(** The update cell stops at the first iteration that raises. *)
Lemma manual_update_outcome (net : Net) (s : Session Tensor) :
  manual_update net s
  = match parameters net with
    | [] => (Ok tt, s)
    | f :: fs =>
        match update_parameter f s with
        | (Ok _, s1) => for_each fs update_parameter s1
        | (Raise e, s1) => (Raise e, s1)
        end
    end.
Proof. unfold manual_update. by destruct (parameters net). Qed.

(** The optimiser cell, in every case. *)
Lemma training_step_outcome (net : Net) (input target : Tensor) (s : Session Tensor) :
  training_step net input target s
  = match parameters net with
    | [] => (Raise (ValueError "optimizer got an empty parameter list"), s)
    | _ :: _ =>
        match optim_zero_grad (parameters net) (store s) with
        | Raise e => (Raise e, add_log s [CallZeroGrad])
        | Ok st1 =>
            match Net_forward net input (set_store (add_log s [CallZeroGrad]) st1) with
            | (Raise e, s2) => (Raise e, s2)
            | (Ok output, s2) =>
                match F_mse_loss output target with
                | Raise e => (Raise e, add_log s2 [CallMSELoss])
                | Ok loss =>
                    match autograd_backward loss (store s2) with
                    | Raise e => (Raise e, add_log s2 [CallMSELoss; CallBackward])
                    | Ok st3 =>
                        match optim_step learning_rate (parameters net) st3 with
                        | Raise e =>
                            (Raise e,
                             set_store (add_log s2 [CallMSELoss; CallBackward; CallStep])
                                       st3)
                        | Ok st4 =>
                            (Ok tt,
                             set_store (add_log s2 [CallMSELoss; CallBackward; CallStep])
                                       st4)
                        end
                    end
                end
            end
        end
    end.
Proof.
  unfold training_step.
  destruct (parameters net) as [|p ps] eqn:Hps; [reflexivity|].
  unfold bind at 1. cbn [optim_SGD ret].
  unfold bind at 1. unfold optimiser_zero_grad, bind at 1. cbn [emit opt_params].
  unfold update_store at 1. cbn [store].
  destruct (optim_zero_grad (p :: ps) (store s)) as [st1|e]; [|reflexivity].
  unfold bind at 1. unfold set_store, add_log. cbn [store next_id draws log].
  destruct (Net_forward net input _) as [[output|e] s2]; [|reflexivity].
  unfold bind at 1. unfold criterion, bind at 1. cbn [emit lift].
  destruct (F_mse_loss output target) as [loss|e]; [|reflexivity].
  unfold bind at 1. unfold loss_backward, bind at 1. cbn [emit].
  unfold update_store at 1. cbn [store].
  destruct (autograd_backward loss (store s2)) as [st3|e].
  2:{ unfold add_log. cbn. by rewrite <- app_assoc. }
  unfold optimiser_step, bind. cbn [emit opt_params opt_lr].
  unfold update_store. cbn [store].
  destruct (optim_step learning_rate (p :: ps) st3) as [st4|e];
    unfold add_log, set_store; cbn; by rewrite <- !app_assoc.
Qed.

End CellOutcomes.

(** The CUDA cell, in every case. *)
Lemma cuda_cell_outcome (Tensor : Type) (h : Host Tensor) (r1 r2 : Tensor)
    (v : Vars Tensor) :
  cuda_cell h r1 r2 v
  = (if cuda_is_available h then
       match t_cuda h r1 with
       | Raise e => (Raise e, mkVars r1 r2 (printed v))
       | Ok gx =>
           match t_cuda h r2 with
           | Raise e => (Raise e, mkVars gx r2 (printed v))
           | Ok gy =>
               match t_add h gx gy with
               | Raise e => (Raise e, mkVars gx gy (printed v))
               | Ok z => (Ok tt, mkVars gx gy (printed v ++ [z]))
               end
           end
       end
     else (Ok tt, mkVars r1 r2 (printed v))).
Proof.
  unfold cuda_cell, bind, assign_x, assign_y, get_x, get_y, lift, print, ret.
  cbn. destruct (cuda_is_available h); [|reflexivity].
  destruct (t_cuda h r1) as [gx|e] eqn:E1; cbn; rewrite ?E1; [|reflexivity].
  destruct (t_cuda h r2) as [gy|e] eqn:E2; cbn; rewrite ?E2; [|reflexivity].
  destruct (t_add h gx gy) as [z|e] eqn:E3; cbn; rewrite ?E3; reflexivity.
Qed.

(** The dataset constructors of the loading cell, in every case. *)
Lemma cifar_datasets_cell_outcome (d : DataHost) :
  cifar_datasets_cell d
  = if data_present d then (Ok tt, d)
    else match fetch d with
         | Ok _ => (Ok tt, mkDataHost true (fetch d))
         | Raise e => (Raise e, d)
         end.
Proof.
  unfold cifar_datasets_cell, CIFAR10_new, bind, ret.
  destruct d as [[] [[]|e]]; reflexivity.
Qed.

(** A missing archive with a working download: the cell ends normally. *)
Lemma cifar_missing_dataset_is_downloaded :
  cifar_datasets_cell (mkDataHost false (Ok tt)) = (Ok tt, mkDataHost true (Ok tt)).
Proof. reflexivity. Qed.

